(** * KiBot Python plugin runtime: IPC client and plugin base

    A shallow embedding of [ipc_client.py] (class [IPCClient]) and of
    [plugin_base.py] (class [PluginBase]) of the Python plugin SDK, and the
    properties of the dispatch core proved about it; at the end, the
    storage of [storage.py], the two calls of [plugin_context.py] and the
    escaping of [cq_parser.py].

    Conventions of the embedding.
    - Values that travel over the channel or through [Dict[str, Any]]
      parameters are JSON values; a Python [dict] literal is an association
      list in insertion order.
    - Python [float]s are exact rationals [Q]; nothing below depends on
      rounding.
    - The coroutines are run one after the other: a coroutine that awaits a
      response sees the messages the intake loop handles meanwhile (the
      [arrivals] of that wait), and [asyncio.create_task] puts the coroutine
      in a queue instead of running it.
    - Handlers supplied by plugin authors are arbitrary functions on the
      mutable state of the process; they cannot change the handler tables.
    - The wall clock is part of that state: it moves when a handler moves
      it, when a wait runs into its deadline and when the intake loop
      sleeps, forwards or backwards. *)

From Stdlib Require Import QArith Lqa Ascii.
From stdpp Require Import gmap strings list fin_maps pretty.

#[local] Open Scope string_scope.
#[local] Open Scope list_scope.
#[local] Open Scope Z_scope.
#[local] Set Warnings "-register-all".

(** ** JSON values and the Python operations applied to them *)

Inductive JSON : Type :=
| JNull
| JBool (b : bool)
| JInt (z : Z)
| JFloat (q : Q)
| JStr (s : string)
| JArr (items : list JSON)
| JObj (fields : list (string * JSON)).

Abbreviation Dict := (list (string * JSON)).

(** [d[key]] as an option: the first binding of [key]. *)
Fixpoint dict_lookup (key : string) (d : Dict) : option JSON :=
  match d with
  | [] => None
  | (k, v) :: rest => if decide (k = key) then Some v else dict_lookup key rest
  end.

(** [d.get(key)]: a missing key reads as [None]. *)
Definition dict_get (key : string) (d : Dict) : JSON :=
  default JNull (dict_lookup key d).

(** [d.get(key, dflt)]. *)
Definition dict_get_default (key : string) (dflt : JSON) (d : Dict) : JSON :=
  default dflt (dict_lookup key d).

(** Truth value of a decoded JSON value ([bool(x)]). *)
Definition truthy (j : JSON) : bool :=
  match j with
  | JNull => false
  | JBool b => b
  | JInt z => negb (z =? 0)
  | JFloat q => negb (Qnum q =? 0)
  | JStr s => negb (String.eqb s "")
  | JArr items => match items with [] => false | _ => true end
  | JObj fields => match fields with [] => false | _ => true end
  end.

(** Lists and dicts are the unhashable JSON values. *)
Definition hashable (j : JSON) : bool :=
  match j with
  | JArr _ | JObj _ => false
  | _ => true
  end.

Definition type_name (j : JSON) : string :=
  match j with
  | JNull => "NoneType"
  | JBool _ => "bool"
  | JInt _ => "int"
  | JFloat _ => "float"
  | JStr _ => "str"
  | JArr _ => "list"
  | JObj _ => "dict"
  end.

(** [x == 'literal'] for a decoded value [x]. *)
Definition is_str (lit : string) (j : JSON) : bool :=
  match j with
  | JStr s => String.eqb s lit
  | _ => false
  end.

(** [repr(x)].  Integers, [None] and booleans are rendered as Python does;
    a float is shown as its fraction and a nested string is quoted without
    escapes.  The rendering only reaches log lines and error texts. *)
Fixpoint py_repr (j : JSON) : string :=
  match j with
  | JNull => "None"
  | JBool b => if b then "True" else "False"
  | JInt z => pretty z
  | JFloat q => pretty (Qnum q) +:+ "/" +:+ pretty (Zpos (Qden q))
  | JStr s => "'" +:+ s +:+ "'"
  | JArr items => "[" +:+ String.concat ", " (List.map py_repr items) +:+ "]"
  | JObj fields =>
      "{" +:+ String.concat ", "
                (List.map (fun kv => "'" +:+ fst kv +:+ "': " +:+ py_repr (snd kv)) fields)
          +:+ "}"
  end.

(** [str(x)], also what an f-string puts in place of [{x}]. *)
Definition py_str (j : JSON) : string :=
  match j with
  | JStr s => s
  | _ => py_repr j
  end.

(** ** Exceptions and outcomes *)

(** An exception object: its class, whether the class derives from
    [Exception] (what [except Exception] catches), [str(error)] and the
    formatted traceback. *)
Record PyExn : Type := {
  exn_class : string;
  exn_is_Exception : bool;
  exn_message : string;
  exn_traceback : string
}.

(** [Exception(msg)] raised by the SDK itself. *)
Definition Exception (msg : string) : PyExn :=
  {| exn_class := "Exception"; exn_is_Exception := true;
     exn_message := msg; exn_traceback := "" |}.

Definition TypeError (msg : string) : PyExn :=
  {| exn_class := "TypeError"; exn_is_Exception := true;
     exn_message := msg; exn_traceback := "" |}.

Definition KeyError (key : string) : PyExn :=
  {| exn_class := "KeyError"; exn_is_Exception := true;
     exn_message := "'" +:+ key +:+ "'"; exn_traceback := "" |}.

Definition AttributeError (msg : string) : PyExn :=
  {| exn_class := "AttributeError"; exn_is_Exception := true;
     exn_message := msg; exn_traceback := "" |}.

Definition InvalidStateError : PyExn :=
  {| exn_class := "InvalidStateError"; exn_is_Exception := true;
     exn_message := "invalid state"; exn_traceback := "" |}.

Definition TimeoutError : PyExn :=
  {| exn_class := "TimeoutError"; exn_is_Exception := true;
     exn_message := ""; exn_traceback := "" |}.

(** [asyncio.CancelledError] derives from [BaseException] only. *)
Definition CancelledError : PyExn :=
  {| exn_class := "CancelledError"; exn_is_Exception := false;
     exn_message := ""; exn_traceback := "" |}.

Inductive Outcome (A : Type) : Type :=
| Return (a : A)
| Raise (e : PyExn).
Arguments Return {A} a.
Arguments Raise {A} e.

(** [key in d] and [d[key]] for a dict with string keys and a key of any
    type: hashing a list or a dict raises, any other non-string key is
    simply absent. *)
Definition py_lookup {V : Type} (key : JSON) (d : gmap string V) : Outcome (option V) :=
  match key with
  | JStr s => Return (d !! s)
  | JArr _ | JObj _ => Raise (TypeError ("unhashable type: '" +:+ type_name key +:+ "'"))
  | _ => Return None
  end.

(** ** Log lines *)

Inductive Level : Type := Debug | Info | Warn | Error.

Record LogLine : Type := { level : Level; text : string }.

#[global] Instance Level_eq_dec : EqDecision Level.
Proof. solve_decision. Defined.

(** ** The mutable state *)

(** *** Objects owned by [PluginBase] *)

(** One entry of a [last_executions] window. *)
Record Sample : Type := {
  sample_timestamp : Q;
  sample_duration : Q;
  sample_success : bool
}.

(** The dict stored under a handler name in one of the performance maps.
    [min_duration] starts at [float('inf')], written [None] here. *)
Record PerfRecord : Type := {
  total_executions : Z;
  successful_executions : Z;
  failed_executions : Z;
  total_duration : Q;
  min_duration : option Q;
  max_duration : Q;
  avg_duration : Q;
  last_executions : list Sample
}.

Record Performance : Type := {
  command_performance : gmap string PerfRecord;
  event_performance : gmap string PerfRecord;
  task_performance : gmap string PerfRecord
}.

Record Statistics : Type := {
  command_executions : Z;
  events_handled : Z;
  tasks_executed : Z;
  errors_occurred : Z
}.

(** The [error_info] dict built by the error recorder. *)
Record ErrorInfo : Type := {
  error_type : string;
  error_source : string;
  error_message : string;
  error_stack : string;
  error_timestamp : Q;
  error_plugin_id : string;
  error_plugin_name : string
}.

(** The [task_info] dict of a scheduled task, without its ['handler'] key
    (the handlers are kept in the handler tables). *)
Record TaskInfo : Type := {
  task_name : string;
  task_cron : string;
  execution_count : Z;
  last_executed : option Q;
  is_active : bool
}.

(** [plugin_info]: the ['id'] key is required, ['name'] is optional. *)
Record PluginInfo : Type := {
  plugin_id : string;
  plugin_name : option string
}.

(** The attributes of a [PluginBase] instance.  [logger] is the output of
    [self.logger] and [attrs] holds the attributes a subclass adds. *)
Record PluginBase : Type := {
  info : PluginInfo;
  is_enabled : bool;
  statistics : Statistics;
  performance : Performance;
  last_activity : Q;
  errors : list ErrorInfo;
  _concurrent_operations : Z;
  _max_concurrent_operations : Z;
  _scheduled_tasks : gmap string TaskInfo;
  logger : list LogLine;
  attrs : gmap string JSON
}.

(** *** Objects owned by [IPCClient] and by the process *)

(** An [asyncio.Future]. *)
Inductive Future : Type :=
| Pending
| Result (v : JSON)
| Failed (e : PyExn)
| Cancelled.

(** A coroutine handed to [asyncio.create_task]. *)
Inductive Coroutine : Type :=
| CoHandleRequest (message : Dict)
| CoHandleEvent (message : Dict)
| CoRegisterCommandRemote (command : string) (options : Dict).

(** The attributes of an [IPCClient] instance, without its handler table:
    [pending_requests] maps a request id to the future created for it (its
    index in [futures]). *)
Record IPCClient : Type := {
  pending_requests : gmap string nat;
  running : bool
}.

(** What the process offers: the wall clock in seconds ([time.time()] and
    [datetime.now().timestamp()]), the draws of [uuid.uuid4()], the
    messages handled during each wait, the two output streams, the futures
    created so far and the tasks created and not yet run. *)
Record Process : Type := {
  clock : Q;
  uuid4 : nat -> string;
  drawn : nat;
  arrivals : nat -> list Dict;
  waits : nat;
  stdout : list Dict;
  stderr : list LogLine;
  futures : list Future;
  tasks : list Coroutine
}.

Record World : Type := {
  proc : Process;
  ipc : IPCClient;
  self : PluginBase
}.

(** *** Field updates *)

Definition upd_proc (f : Process -> Process) (w : World) : World :=
  {| proc := f (proc w); ipc := ipc w; self := self w |}.
Definition upd_ipc (f : IPCClient -> IPCClient) (w : World) : World :=
  {| proc := proc w; ipc := f (ipc w); self := self w |}.
Definition upd_self (f : PluginBase -> PluginBase) (w : World) : World :=
  {| proc := proc w; ipc := ipc w; self := f (self w) |}.

Definition set_clock (v : Q) (p : Process) : Process :=
  {| clock := v; uuid4 := uuid4 p; drawn := drawn p; arrivals := arrivals p;
     waits := waits p; stdout := stdout p; stderr := stderr p;
     futures := futures p; tasks := tasks p |}.
Definition set_drawn (v : nat) (p : Process) : Process :=
  {| clock := clock p; uuid4 := uuid4 p; drawn := v; arrivals := arrivals p;
     waits := waits p; stdout := stdout p; stderr := stderr p;
     futures := futures p; tasks := tasks p |}.
Definition set_waits (v : nat) (p : Process) : Process :=
  {| clock := clock p; uuid4 := uuid4 p; drawn := drawn p; arrivals := arrivals p;
     waits := v; stdout := stdout p; stderr := stderr p;
     futures := futures p; tasks := tasks p |}.
Definition set_stdout (v : list Dict) (p : Process) : Process :=
  {| clock := clock p; uuid4 := uuid4 p; drawn := drawn p; arrivals := arrivals p;
     waits := waits p; stdout := v; stderr := stderr p;
     futures := futures p; tasks := tasks p |}.
Definition set_stderr (v : list LogLine) (p : Process) : Process :=
  {| clock := clock p; uuid4 := uuid4 p; drawn := drawn p; arrivals := arrivals p;
     waits := waits p; stdout := stdout p; stderr := v;
     futures := futures p; tasks := tasks p |}.
Definition set_futures (v : list Future) (p : Process) : Process :=
  {| clock := clock p; uuid4 := uuid4 p; drawn := drawn p; arrivals := arrivals p;
     waits := waits p; stdout := stdout p; stderr := stderr p;
     futures := v; tasks := tasks p |}.
Definition set_tasks (v : list Coroutine) (p : Process) : Process :=
  {| clock := clock p; uuid4 := uuid4 p; drawn := drawn p; arrivals := arrivals p;
     waits := waits p; stdout := stdout p; stderr := stderr p;
     futures := futures p; tasks := v |}.

Definition set_pending_requests (v : gmap string nat) (c : IPCClient) : IPCClient :=
  {| pending_requests := v; running := running c |}.
Definition set_running (v : bool) (c : IPCClient) : IPCClient :=
  {| pending_requests := pending_requests c; running := v |}.

Definition set_is_enabled (v : bool) (s : PluginBase) : PluginBase :=
  {| info := info s; is_enabled := v; statistics := statistics s;
     performance := performance s; last_activity := last_activity s;
     errors := errors s; _concurrent_operations := _concurrent_operations s;
     _max_concurrent_operations := _max_concurrent_operations s;
     _scheduled_tasks := _scheduled_tasks s; logger := logger s; attrs := attrs s |}.
Definition set_statistics (v : Statistics) (s : PluginBase) : PluginBase :=
  {| info := info s; is_enabled := is_enabled s; statistics := v;
     performance := performance s; last_activity := last_activity s;
     errors := errors s; _concurrent_operations := _concurrent_operations s;
     _max_concurrent_operations := _max_concurrent_operations s;
     _scheduled_tasks := _scheduled_tasks s; logger := logger s; attrs := attrs s |}.
Definition set_performance (v : Performance) (s : PluginBase) : PluginBase :=
  {| info := info s; is_enabled := is_enabled s; statistics := statistics s;
     performance := v; last_activity := last_activity s;
     errors := errors s; _concurrent_operations := _concurrent_operations s;
     _max_concurrent_operations := _max_concurrent_operations s;
     _scheduled_tasks := _scheduled_tasks s; logger := logger s; attrs := attrs s |}.
Definition set_last_activity (v : Q) (s : PluginBase) : PluginBase :=
  {| info := info s; is_enabled := is_enabled s; statistics := statistics s;
     performance := performance s; last_activity := v;
     errors := errors s; _concurrent_operations := _concurrent_operations s;
     _max_concurrent_operations := _max_concurrent_operations s;
     _scheduled_tasks := _scheduled_tasks s; logger := logger s; attrs := attrs s |}.
Definition set_errors (v : list ErrorInfo) (s : PluginBase) : PluginBase :=
  {| info := info s; is_enabled := is_enabled s; statistics := statistics s;
     performance := performance s; last_activity := last_activity s;
     errors := v; _concurrent_operations := _concurrent_operations s;
     _max_concurrent_operations := _max_concurrent_operations s;
     _scheduled_tasks := _scheduled_tasks s; logger := logger s; attrs := attrs s |}.
Definition set_concurrent_operations (v : Z) (s : PluginBase) : PluginBase :=
  {| info := info s; is_enabled := is_enabled s; statistics := statistics s;
     performance := performance s; last_activity := last_activity s;
     errors := errors s; _concurrent_operations := v;
     _max_concurrent_operations := _max_concurrent_operations s;
     _scheduled_tasks := _scheduled_tasks s; logger := logger s; attrs := attrs s |}.
Definition set_max_concurrent_operations (v : Z) (s : PluginBase) : PluginBase :=
  {| info := info s; is_enabled := is_enabled s; statistics := statistics s;
     performance := performance s; last_activity := last_activity s;
     errors := errors s; _concurrent_operations := _concurrent_operations s;
     _max_concurrent_operations := v;
     _scheduled_tasks := _scheduled_tasks s; logger := logger s; attrs := attrs s |}.
Definition set_scheduled_tasks (v : gmap string TaskInfo) (s : PluginBase) : PluginBase :=
  {| info := info s; is_enabled := is_enabled s; statistics := statistics s;
     performance := performance s; last_activity := last_activity s;
     errors := errors s; _concurrent_operations := _concurrent_operations s;
     _max_concurrent_operations := _max_concurrent_operations s;
     _scheduled_tasks := v; logger := logger s; attrs := attrs s |}.
Definition set_logger (v : list LogLine) (s : PluginBase) : PluginBase :=
  {| info := info s; is_enabled := is_enabled s; statistics := statistics s;
     performance := performance s; last_activity := last_activity s;
     errors := errors s; _concurrent_operations := _concurrent_operations s;
     _max_concurrent_operations := _max_concurrent_operations s;
     _scheduled_tasks := _scheduled_tasks s; logger := v; attrs := attrs s |}.
Definition set_attrs (v : gmap string JSON) (s : PluginBase) : PluginBase :=
  {| info := info s; is_enabled := is_enabled s; statistics := statistics s;
     performance := performance s; last_activity := last_activity s;
     errors := errors s; _concurrent_operations := _concurrent_operations s;
     _max_concurrent_operations := _max_concurrent_operations s;
     _scheduled_tasks := _scheduled_tasks s; logger := logger s; attrs := v |}.

(** A computation of the SDK or of a plugin: it runs on the state and
    returns or raises. *)
Definition M (A : Type) : Type := World -> Outcome A * World.

(** ** The handler tables *)

(** [PluginBase._command_handlers], [_event_handlers] and the ['handler']
    entries of [_scheduled_tasks]: the closures stored at registration. *)
Record Tables : Type := {
  _command_handlers : gmap string (JSON -> JSON -> M unit);
  _event_handlers : gmap string (list (JSON -> M unit));
  _task_handlers : gmap string (M unit)
}.

(** [IPCClient.event_handlers], keyed by ['request:<action>'] or
    ['event:<action>'].  A handler is a closure over the plugin object, so
    it is given the plugin's tables as they are when it is called. *)
Record Plugin : Type := {
  event_handlers : gmap string (JSON -> Tables -> M JSON);
  tables : Tables
}.

Definition set_event_handlers (v : gmap string (JSON -> Tables -> M JSON)) (P : Plugin) : Plugin :=
  {| event_handlers := v; tables := tables P |}.
Definition set_tables (v : Tables) (P : Plugin) : Plugin :=
  {| event_handlers := event_handlers P; tables := v |}.
Definition set_command_handlers (v : gmap string (JSON -> JSON -> M unit)) (T : Tables) : Tables :=
  {| _command_handlers := v; _event_handlers := _event_handlers T;
     _task_handlers := _task_handlers T |}.
Definition set_event_handler_lists (v : gmap string (list (JSON -> M unit))) (T : Tables) : Tables :=
  {| _command_handlers := _command_handlers T; _event_handlers := v;
     _task_handlers := _task_handlers T |}.
Definition set_task_handlers (v : gmap string (M unit)) (T : Tables) : Tables :=
  {| _command_handlers := _command_handlers T; _event_handlers := _event_handlers T;
     _task_handlers := v |}.

(** ** [ipc_client.py] *)

(** [int(x)] on a float: truncation towards zero. *)
Definition py_int (x : Q) : Z := Z.quot (Qnum x) (Zpos (Qden x)).

(** [int((time.time() - start_time) * 1000)]. *)
Definition elapsed_ms (start_time : Q) (w : World) : Z :=
  py_int ((clock (proc w) - start_time) * 1000)%Q.

(** [x or {}] and [x or []]. *)
Definition or_empty_dict (x : JSON) : JSON := if truthy x then x else JObj [].
Definition or_empty_list (x : JSON) : JSON := if truthy x then x else JArr [].

(** [x.get(key)] on a value that need not be a dict. *)
Definition py_get (key : string) (x : JSON) : Outcome JSON :=
  match x with
  | JObj d => Return (dict_get key d)
  | _ => Raise (AttributeError ("'" +:+ type_name x +:+ "' object has no attribute 'get'"))
  end.

(** [x[key]] for a string key. *)
Definition py_subscript (key : string) (x : JSON) : Outcome JSON :=
  match x with
  | JObj d =>
      match dict_lookup key d with
      | Some v => Return v
      | None => Raise (KeyError key)
      end
  | JArr _ => Raise (TypeError "list indices must be integers or slices, not str")
  | JStr _ => Raise (TypeError "string indices must be integers, not 'str'")
  | _ => Raise (TypeError ("'" +:+ type_name x +:+ "' object is not subscriptable"))
  end.

Definition py_get_default (key : string) (dflt : JSON) (x : JSON) : Outcome JSON :=
  match x with
  | JObj d => Return (dict_get_default key dflt d)
  | _ => Raise (AttributeError ("'" +:+ type_name x +:+ "' object has no attribute 'get'"))
  end.

Definition write_stderr (l : LogLine) (w : World) : World :=
  upd_proc (fun p => set_stderr (stderr p ++ [l]) p) w.

Definition _log_info (message : string) (w : World) : World :=
  write_stderr {| level := Info; text := "[IPC] " +:+ message |} w.

Definition _log_error (message : string) (w : World) : World :=
  write_stderr {| level := Error; text := "[IPC Error] " +:+ message |} w.

(** [traceback.print_exc()] while [error] is being handled. *)
Definition print_exc (error : PyExn) (w : World) : World :=
  write_stderr {| level := Error; text := exn_traceback error |} w.

(** [datetime.now().timestamp()]. *)
Definition timestamp (w : World) : JSON := JFloat (clock (proc w)).

(** [_send]: one line on stdout.  A message built from JSON values always
    serializes, so the branch that logs a failed [json.dumps] is not
    reachable here. *)
Definition _send (message : Dict) (w : World) : World :=
  upd_proc (fun p => set_stdout (stdout p ++ [message]) p) w.

Definition _generate_id (w : World) : string * World :=
  (uuid4 (proc w) (drawn (proc w)),
   upd_proc (fun p => set_drawn (S (drawn p)) p) w).

Definition send_response_sync (msg_id : JSON) (data : JSON) (w : World) : World :=
  _send [("id", msg_id); ("type", JStr "response"); ("data", data);
         ("timestamp", timestamp w)] w.

Definition send_error_sync (msg_id : JSON) (error : string) (w : World) : World :=
  _send [("id", msg_id); ("type", JStr "response"); ("error", JStr error);
         ("timestamp", timestamp w)] w.

Definition send_response (msg_id : JSON) (data : JSON) : M unit :=
  fun w => (Return tt, send_response_sync msg_id data w).

Definition send_error (msg_id : JSON) (error : string) : M unit :=
  fun w => (Return tt, send_error_sync msg_id error w).

Definition send_event (action : string) (data : JSON) : M unit :=
  fun w => (Return tt,
            _send [("type", JStr "event"); ("action", JStr action);
                   ("data", or_empty_dict data); ("timestamp", timestamp w)] w).

(** [asyncio.create_task(co)]: the coroutine is put in the queue; nothing
    here runs the queue. *)
Definition create_task (co : Coroutine) (w : World) : World :=
  upd_proc (fun p => set_tasks (tasks p ++ [co]) p) w.

(** [loop.create_future()]. *)
Definition create_future (w : World) : nat * World :=
  (length (futures (proc w)),
   upd_proc (fun p => set_futures (futures p ++ [Pending]) p) w).

(** [future.set_result] and [future.set_exception]: only a pending future
    can be completed. *)
Definition complete (future : nat) (v : Future) : M unit :=
  fun w =>
    match futures (proc w) !! future with
    | Some Pending =>
        (Return tt, upd_proc (fun p => set_futures (<[future := v]> (futures p)) p) w)
    | _ => (Raise InvalidStateError, w)
    end.

Definition set_result (future : nat) (data : JSON) : M unit :=
  complete future (Result data).

Definition set_exception (future : nat) (e : PyExn) : M unit :=
  complete future (Failed e).

Definition _handle_message (message : Dict) : M unit :=
  fun w =>
    let msg_type := dict_get "type" message in
    let msg_id := dict_get "id" message in
    let w := _log_info ("处理消息: type=" +:+ py_str msg_type +:+ ", id=" +:+ py_str msg_id) w in
    if is_str "response" msg_type then
      if truthy msg_id then
        match py_lookup msg_id (pending_requests (ipc w)) with
        | Raise e => (Raise e, w)
        | Return None => (Return tt, w)
        | Return (Some future) =>
            let w := upd_ipc (fun c => set_pending_requests
                                         (delete (py_str msg_id) (pending_requests c)) c) w in
            if truthy (dict_get "error" message) then
              set_exception future (Exception (py_str (dict_get "error" message))) w
            else
              set_result future (dict_get "data" message) w
        end
      else (Return tt, w)
    else if is_str "request" msg_type then
      (Return tt, create_task (CoHandleRequest message) w)
    else if is_str "event" msg_type then
      (Return tt, create_task (CoHandleEvent message) w)
    else
      (Return tt, _log_error ("未知消息类型: " +:+ py_str msg_type) w).

Definition _handle_request (P : Plugin) (message : Dict) : M unit :=
  fun w =>
    let action := dict_get "action" message in
    let data := dict_get_default "data" (JObj []) message in
    let msg_id := dict_get "id" message in
    if negb (truthy msg_id) then
      (Return tt, _log_error "收到没有ID的请求，忽略" w)
    else
      let start_time := clock (proc w) in
      match event_handlers P !! ("request:" +:+ py_str action) with
      | Some handler =>
          let w := _log_info ("开始处理请求: " +:+ py_str action +:+ ", ID: " +:+ py_str msg_id) w in
          match handler data (tables P) w with
          | (Return result, w) =>
              let w := _log_info ("请求处理完成: " +:+ py_str action +:+ ", ID: " +:+ py_str msg_id
                                  +:+ ", 耗时: " +:+ pretty (elapsed_ms start_time w) +:+ "ms") w in
              (Return tt, send_response_sync msg_id result w)
          | (Raise error, w) =>
              if exn_is_Exception error then
                let w := _log_error ("请求处理失败: " +:+ py_str action +:+ ", ID: " +:+ py_str msg_id
                                     +:+ ", 耗时: " +:+ pretty (elapsed_ms start_time w) +:+ "ms") w in
                let w := print_exc error w in
                (Return tt, send_error_sync msg_id (exn_message error) w)
              else (Raise error, w)
          end
      | None =>
          let w := _log_error ("未知请求: " +:+ py_str action +:+ ", ID: " +:+ py_str msg_id) w in
          (Return tt, send_error_sync msg_id ("Unknown action: " +:+ py_str action) w)
      end.

Definition _handle_event (P : Plugin) (message : Dict) : M unit :=
  fun w =>
    let action := dict_get "action" message in
    let data := dict_get_default "data" (JObj []) message in
    match event_handlers P !! ("event:" +:+ py_str action) with
    | Some handler =>
        match handler data (tables P) w with
        | (Return _, w) => (Return tt, w)
        | (Raise error, w) =>
            if exn_is_Exception error then
              (Return tt, _log_error ("事件处理错误: " +:+ exn_message error) w)
            else (Raise error, w)
        end
    | None => (Return tt, w)
    end.

Definition on_request (action : string) (handler : JSON -> Tables -> M JSON) (P : Plugin) : Plugin :=
  set_event_handlers (<["request:" +:+ action := handler]> (event_handlers P)) P.

Definition on_event (action : string) (handler : JSON -> Tables -> M JSON) (P : Plugin) : Plugin :=
  set_event_handlers (<["event:" +:+ action := handler]> (event_handlers P)) P.

(** The body of the loop of [_read_messages] for one line that decoded to
    [message], from the call of [_handle_message] on: an exception of the
    handling is logged, the loop sleeps for a tenth of a second and goes
    on.  (Reading and decoding the line, and the echo of its text, are left
    out; [_handle_message] raises nothing outside [Exception].) *)
Definition intake (message : Dict) (w : World) : World :=
  match _handle_message message w with
  | (Return _, w) => w
  | (Raise error, w) =>
      if exn_is_Exception error then
        let w := _log_error ("读取消息错误: " +:+ exn_message error) w in
        let w := print_exc error w in
        upd_proc (fun p => set_clock (clock p + (1 # 10))%Q p) w
      else w
  end.

(** [await asyncio.wait_for(future, timeout)]: the intake loop handles the
    arrivals of this wait; then the future is done, or the deadline passes,
    the future is cancelled and [TimeoutError] is raised.  The coroutines
    queued by [create_task] are not run during the wait. *)
Definition wait_for (future : nat) (timeout : Q) : M JSON :=
  fun w =>
    let inbound := arrivals (proc w) (waits (proc w)) in
    let w := upd_proc (fun p => set_waits (S (waits p)) p) w in
    let w := fold_left (fun w message => intake message w) inbound w in
    match futures (proc w) !! future with
    | Some (Result v) => (Return v, w)
    | Some (Failed e) => (Raise e, w)
    | Some Cancelled => (Raise CancelledError, w)
    | _ =>
        (Raise TimeoutError,
         upd_proc (fun p => set_clock (clock p + timeout)%Q
                              (set_futures (<[future := Cancelled]> (futures p)) p)) w)
    end.

Definition send_request (action : string) (data : JSON) (timeout : Q) : M JSON :=
  fun w =>
    let '(msg_id, w) := _generate_id w in
    let message := [("id", JStr msg_id); ("type", JStr "request");
                    ("action", JStr action); ("data", or_empty_dict data);
                    ("timestamp", timestamp w)] in
    let '(future, w) := create_future w in
    let w := upd_ipc (fun c => set_pending_requests
                                 (<[msg_id := future]> (pending_requests c)) c) w in
    let w := _send message w in
    match wait_for future timeout w with
    | (Return result, w) => (Return result, w)
    | (Raise e, w) =>
        if String.eqb (exn_class e) "TimeoutError" then
          (Raise (Exception ("Request timeout: " +:+ action)),
           upd_ipc (fun c => set_pending_requests (delete msg_id (pending_requests c)) c) w)
        else (Raise e, w)
    end.

(** ** [plugin_base.py] *)

(** *** The logger

    Modelled from the spec: the [logger] module is not part of the sources;
    it is "a structured logger accepting debug/info/warn/error", so a call
    appends one line at that level to the logger's output. *)
Definition logger_log (lvl : Level) (message : string) (w : World) : World :=
  upd_self (fun s => set_logger (logger s ++ [{| level := lvl; text := message |}]) s) w.

(** *** Error and performance recording *)

Definition count_error (st : Statistics) : Statistics :=
  {| command_executions := command_executions st; events_handled := events_handled st;
     tasks_executed := tasks_executed st; errors_occurred := errors_occurred st + 1 |}.
Definition count_command (st : Statistics) : Statistics :=
  {| command_executions := command_executions st + 1; events_handled := events_handled st;
     tasks_executed := tasks_executed st; errors_occurred := errors_occurred st |}.
Definition count_event (st : Statistics) : Statistics :=
  {| command_executions := command_executions st; events_handled := events_handled st + 1;
     tasks_executed := tasks_executed st; errors_occurred := errors_occurred st |}.
Definition count_task (st : Statistics) : Statistics :=
  {| command_executions := command_executions st; events_handled := events_handled st;
     tasks_executed := tasks_executed st + 1; errors_occurred := errors_occurred st |}.

(** [time.time() * 1000]. *)
Definition now_ms (w : World) : Q := (clock (proc w) * 1000)%Q.

(** The [error_info] dict of [__record_error_internal].  The stack is
    [traceback.format_exc()], taken while [error] is being handled. *)
Definition error_info_of (error_type source : string) (error : PyExn) (w : World) : ErrorInfo :=
  {| error_type := error_type;
     error_source := source;
     error_message := exn_message error;
     error_stack := exn_traceback error;
     error_timestamp := now_ms w;
     error_plugin_id := plugin_id (info (self w));
     error_plugin_name := default (plugin_id (info (self w))) (plugin_name (info (self w))) |}.

(** [__record_error_internal]. *)
Definition _PluginBase__record_error_internal
    (error_type source : string) (error : PyExn) (w : World) : World :=
  let error_info := error_info_of error_type source error w in
  let w := upd_self (fun s => set_errors (errors s ++ [error_info]) s) w in
  let w := upd_self (fun s => set_statistics (count_error (statistics s)) s) w in
  let w := if decide (100 < length (errors (self w)))%nat
           then upd_self (fun s => set_errors (tail (errors s)) s) w
           else w in
  logger_log Error ("[" +:+ error_type +:+ ":" +:+ source +:+ "] " +:+ exn_message error) w.

(** The three performance maps, chosen by [perf_type]; an unknown type
    falls back on the command map. *)
Inductive PerfKind : Type := CommandPerf | EventPerf | TaskPerf.

Definition perf_kind (perf_type : string) : PerfKind :=
  if String.eqb perf_type "command" then CommandPerf
  else if String.eqb perf_type "event" then EventPerf
  else if String.eqb perf_type "task" then TaskPerf
  else CommandPerf.

Definition perf_map (k : PerfKind) (p : Performance) : gmap string PerfRecord :=
  match k with
  | CommandPerf => command_performance p
  | EventPerf => event_performance p
  | TaskPerf => task_performance p
  end.

Definition set_perf_map (k : PerfKind) (m : gmap string PerfRecord) (p : Performance) : Performance :=
  match k with
  | CommandPerf =>
      {| command_performance := m; event_performance := event_performance p;
         task_performance := task_performance p |}
  | EventPerf =>
      {| command_performance := command_performance p; event_performance := m;
         task_performance := task_performance p |}
  | TaskPerf =>
      {| command_performance := command_performance p;
         event_performance := event_performance p; task_performance := m |}
  end.

(** The record created for a name seen for the first time. *)
Definition new_perf_record : PerfRecord :=
  {| total_executions := 0; successful_executions := 0; failed_executions := 0;
     total_duration := 0%Q; min_duration := None; max_duration := 0%Q;
     avg_duration := 0%Q; last_executions := [] |}.

(** [min(a, b)] and [max(a, b)]: the second argument wins only when it is
    strictly smaller (larger). *)
Definition py_min (a : option Q) (b : Q) : Q :=
  match a with
  | None => b
  | Some a => if Qle_bool a b then a else b
  end.
Definition py_max (a b : Q) : Q := if Qle_bool b a then a else b.

(** The updates of [perf] for one execution, in the order of the source. *)
Definition add_sample (timestamp_ms duration : Q) (success : bool) (perf : PerfRecord) : PerfRecord :=
  let total := total_executions perf + 1 in
  let succ := if success then successful_executions perf + 1 else successful_executions perf in
  let fail := if success then failed_executions perf else failed_executions perf + 1 in
  let tdur := (total_duration perf + duration)%Q in
  let window := (last_executions perf ++
                 [{| sample_timestamp := timestamp_ms; sample_duration := duration;
                     sample_success := success |}])%list in
  {| total_executions := total;
     successful_executions := succ;
     failed_executions := fail;
     total_duration := tdur;
     min_duration := Some (py_min (min_duration perf) duration);
     max_duration := py_max (max_duration perf) duration;
     avg_duration := (tdur / inject_Z total)%Q;
     last_executions := if decide (20 < length window)%nat then tail window else window |}.

(** [__record_performance_internal].  A negative duration is dropped. *)
Definition _PluginBase__record_performance_internal
    (perf_type name : string) (duration : Q) (success : bool) (w : World) : World :=
  if negb (Qle_bool 0 duration) then w
  else
    let k := perf_kind perf_type in
    let m := perf_map k (performance (self w)) in
    let perf := default new_perf_record (m !! name) in
    upd_self (fun s => set_performance
                         (set_perf_map k (<[name := add_sample (now_ms w) duration success perf]> m)
                                       (performance s)) s) w.

Definition _record_error (error_type source : string) (error : PyExn) (w : World) : World :=
  _PluginBase__record_error_internal error_type source error w.

Definition _record_performance (perf_type name : string) (duration : Q) (success : bool)
    (w : World) : World :=
  _PluginBase__record_performance_internal perf_type name duration success w.

(** *** Messages and API calls *)

Definition call_api (action : string) (params : JSON) : M JSON :=
  send_request "callApi" (JObj [("action", JStr action); ("params", or_empty_dict params)]) 30.

Definition send_message (chat_id : JSON) (message : string) (msg_type : JSON) : M JSON :=
  call_api ("send_" +:+ py_str msg_type +:+ "_msg")
           (JObj [(if is_str "private" msg_type then "user_id" else "group_id", chat_id);
                  ("message", JStr message)]).

(** *** The instrumentation installed at registration *)

(** What both wrappers do before the handler runs; [count] is the counter
    of the category. *)
Definition enter_wrapper (count : Statistics -> Statistics) (w : World) : World :=
  let w := upd_self (fun s => set_last_activity (clock (proc w)) s) w in
  let w := upd_self (fun s => set_statistics (count (statistics s)) s) w in
  let w := upd_self (fun s => set_concurrent_operations (_concurrent_operations s + 1) s) w in
  if decide (_max_concurrent_operations (self w) < _concurrent_operations (self w))
  then upd_self (fun s => set_max_concurrent_operations (_concurrent_operations s) s) w
  else w.

(** The [finally] block of both wrappers. *)
Definition leave_wrapper (perf_type name : string) (start_time : Q) (success : bool)
    (w : World) : World :=
  let w := upd_self (fun s => set_concurrent_operations (_concurrent_operations s - 1) s) w in
  let duration := ((clock (proc w) - start_time) * 1000)%Q in
  _PluginBase__record_performance_internal perf_type name duration success w.

(** The notice to the user after a failed command: whatever goes wrong
    while it is built or sent is swallowed. *)
Definition notify_failure (command : string) (error : PyExn) (event : JSON) (w : World) : World :=
  let error_msg := "⚠️ 执行指令 /" +:+ command +:+ " 时出错：" +:+ exn_message error in
  match py_get "user_id" event with
  | Raise _ => w
  | Return user_id =>
      match py_get_default "message_type" (JStr "private") event with
      | Raise _ => w
      | Return message_type => snd (send_message user_id error_msg message_type w)
      end
  end.

(** [wrapped_handler] of [register_command]. *)
Definition command_wrapped_handler (command : string) (handler : JSON -> JSON -> M JSON)
    : JSON -> JSON -> M unit :=
  fun event args w =>
    let w := enter_wrapper count_command w in
    let start_time := clock (proc w) in
    match handler event args w with
    | (Return _, w) => (Return tt, leave_wrapper "command" command start_time true w)
    | (Raise error, w) =>
        if exn_is_Exception error then
          let w := _PluginBase__record_error_internal "command" command error w in
          let w := notify_failure command error event w in
          (Return tt, leave_wrapper "command" command start_time false w)
        else (Raise error, leave_wrapper "command" command start_time true w)
    end.

(** [wrapped_handler] of [register_event]. *)
Definition event_wrapped_handler (event_type : string) (handler : JSON -> M JSON)
    : JSON -> M unit :=
  fun event w =>
    let w := enter_wrapper count_event w in
    let start_time := clock (proc w) in
    match handler event w with
    | (Return _, w) => (Return tt, leave_wrapper "event" event_type start_time true w)
    | (Raise error, w) =>
        if exn_is_Exception error then
          let w := _PluginBase__record_error_internal "event" event_type error w in
          (Raise error, leave_wrapper "event" event_type start_time false w)
        else (Raise error, leave_wrapper "event" event_type start_time true w)
    end.

(** The bookkeeping of a run in the task's [task_info]. *)
Definition task_ran (now : Q) (t : TaskInfo) : TaskInfo :=
  {| task_name := task_name t; task_cron := task_cron t;
     execution_count := execution_count t + 1; last_executed := Some now;
     is_active := is_active t |}.

(** [wrapped_handler] of [schedule]. *)
Definition task_wrapped_handler (name : string) (handler : M JSON) : M unit :=
  fun w =>
    let w := upd_self (fun s => set_last_activity (clock (proc w)) s) w in
    let w := upd_self (fun s => set_statistics (count_task (statistics s)) s) w in
    let w := upd_self (fun s => set_scheduled_tasks
                                  (alter (task_ran (clock (proc w))) name (_scheduled_tasks s)) s) w in
    match handler w with
    | (Return _, w) => (Return tt, w)
    | (Raise error, w) =>
        if exn_is_Exception error then (Raise error, _record_error "task" name error w)
        else (Raise error, w)
    end.

(** *** Registration *)

(** [d[key] = value] on a dict literal: an existing key keeps its place. *)
Fixpoint dict_set (key : string) (value : JSON) (d : Dict) : Dict :=
  match d with
  | [] => [(key, value)]
  | (k, v) :: rest =>
      if decide (k = key) then (k, value) :: rest else (k, v) :: dict_set key value rest
  end.

(** [{**d, **extra}]. *)
Definition dict_update (d extra : Dict) : Dict :=
  fold_left (fun d kv => dict_set (fst kv) (snd kv) d) extra d.

Definition register_event (event_type : string) (handler : JSON -> M JSON)
    (P : Plugin) (w : World) : Plugin * World :=
  let T := tables P in
  let registered := default [] (_event_handlers T !! event_type) in
  let T := set_event_handler_lists
             (<[event_type := (registered ++ [event_wrapped_handler event_type handler])%list]>
                (_event_handlers T)) T in
  (set_tables T P, logger_log Debug ("注册事件处理器: " +:+ event_type) w).

Definition register_command (command : string) (handler : JSON -> JSON -> M JSON)
    (options : Dict) (P : Plugin) (w : World) : Plugin * World :=
  let T := tables P in
  let T := set_command_handlers
             (<[command := command_wrapped_handler command handler]> (_command_handlers T)) T in
  let w := create_task (CoRegisterCommandRemote command options) w in
  (set_tables T P, logger_log Debug ("注册指令: /" +:+ command) w).

Definition _register_command_remote (command : string) (options : Dict) : M JSON :=
  fun w =>
    send_request "registerCommand"
      (JObj (dict_update [("command", JStr command);
                          ("plugin", JStr (plugin_id (info (self w))))] options))
      30 w.

(** [schedule].  The new [task_info] replaces the whole entry of [name],
    its handler included; the wrapped handler is stored only after the host
    has answered the registration. *)
Definition schedule (name cron : string) (handler : M JSON) (P : Plugin) (w : World)
    : Outcome unit * Plugin * World :=
  let task_info := {| task_name := name; task_cron := cron; execution_count := 0;
                      last_executed := None; is_active := true |} in
  let w := upd_self (fun s => set_scheduled_tasks (<[name := task_info]> (_scheduled_tasks s)) s) w in
  let P := set_tables (set_task_handlers (delete name (_task_handlers (tables P))) (tables P)) P in
  match send_request "registerSchedule"
          (JObj [("name", JStr (plugin_id (info (self w)) +:+ "." +:+ name));
                 ("cron", JStr cron)]) 30 w with
  | (Raise e, w) => (Raise e, P, w)
  | (Return _, w) =>
      let P := set_tables (set_task_handlers
                             (<[name := task_wrapped_handler name handler]>
                                (_task_handlers (tables P))) (tables P)) P in
      (Return tt, P, logger_log Debug ("注册定时任务: " +:+ name +:+ " (" +:+ cron +:+ ")") w)
  end.

(** *** Dispatch *)

Definition dispatch_command (T : Tables) (command : JSON) (event : JSON) (args : JSON) : M unit :=
  fun w =>
    let start_time := clock (proc w) in
    let w := logger_log Debug ("开始执行命令: " +:+ py_str command +:+ ", args=" +:+ py_str args) w in
    match py_lookup command (_command_handlers T) with
    | Raise e => (Raise e, w)
    | Return (Some handler) =>
        let w := upd_self (fun s => set_last_activity (clock (proc w)) s) w in
        let w := upd_self (fun s => set_statistics (count_command (statistics s)) s) w in
        match handler event (or_empty_list args) w with
        | (Return _, w) =>
            (Return tt,
             logger_log Debug ("命令执行成功: " +:+ py_str command +:+ " (耗时: "
                               +:+ pretty (elapsed_ms start_time w) +:+ "ms)") w)
        | (Raise error, w) =>
            if exn_is_Exception error then
              let w := logger_log Error ("命令执行失败: " +:+ py_str command +:+ " (耗时: "
                                         +:+ pretty (elapsed_ms start_time w) +:+ "ms)") w in
              let w := logger_log Error ("错误详情: " +:+ exn_message error) w in
              (Raise error, _record_error "command" (py_str command) error w)
            else (Raise error, w)
        end
    | Return None =>
        (Raise (Exception ("Unknown command: " +:+ py_str command)),
         logger_log Warn ("未找到指令处理器: " +:+ py_str command) w)
    end.

(** The loop of [dispatch_event] over the handlers of one type. *)
Fixpoint run_event_handlers (handlers : list (JSON -> M unit)) (event_data : JSON) : M unit :=
  fun w =>
    match handlers with
    | [] => (Return tt, w)
    | handler :: rest =>
        match handler event_data w with
        | (Return _, w) => run_event_handlers rest event_data w
        | (Raise error, w) =>
            if exn_is_Exception error then
              run_event_handlers rest event_data
                (logger_log Error ("事件处理器错误: " +:+ exn_message error) w)
            else (Raise error, w)
        end
    end.

Definition dispatch_event (T : Tables) (event_type : JSON) (event_data : JSON) : M unit :=
  fun w =>
    match py_lookup event_type (_event_handlers T) with
    | Raise e => (Raise e, w)
    | Return (Some handlers) => run_event_handlers handlers event_data w
    | Return None => (Return tt, w)
    end.

Definition dispatch_task (T : Tables) (task_name : JSON) : M unit :=
  fun w =>
    match py_lookup task_name (_scheduled_tasks (self w)) with
    | Raise e => (Raise e, w)
    | Return None => (Return tt, w)
    | Return (Some _) =>
        match _task_handlers T !! py_str task_name with
        | None => (Return tt, w)
        | Some handler =>
            match handler w with
            | (Return _, w) => (Return tt, w)
            | (Raise error, w) =>
                if exn_is_Exception error then
                  (Return tt, logger_log Error ("定时任务执行错误: " +:+ exn_message error) w)
                else (Raise error, w)
            end
        end
    end.

(** *** The request handlers of [_setup_ipc_handlers] *)

(** [try: body except Exception: traceback.print_exc(); raise]. *)
Definition traced {A : Type} (body : M A) : M A :=
  fun w =>
    match body w with
    | (Raise error, w) =>
        if exn_is_Exception error then (Raise error, print_exc error w) else (Raise error, w)
    | r => r
    end.

Definition success_true : JSON := JObj [("success", JBool true)].

Definition dispatch_command_handler (data : JSON) (T : Tables) : M JSON :=
  traced (fun w =>
    match data with
    | JObj d =>
        match dispatch_command T (dict_get "command" d) (dict_get_default "event" (JObj []) d)
                (dict_get_default "args" (JArr []) d) w with
        | (Return _, w) => (Return success_true, w)
        | (Raise e, w) => (Raise e, w)
        end
    | _ => (Raise (AttributeError ("'" +:+ type_name data +:+ "' object has no attribute 'get'")), w)
    end).

Definition dispatch_task_handler (data : JSON) (T : Tables) : M JSON :=
  traced (fun w =>
    match py_subscript "taskName" data with
    | Raise e => (Raise e, w)
    | Return task_name =>
        match dispatch_task T task_name w with
        | (Return _, w) => (Return success_true, w)
        | (Raise e, w) => (Raise e, w)
        end
    end).

Definition dispatch_event_handler (data : JSON) (T : Tables) : M JSON :=
  traced (fun w =>
    match data with
    | JObj d =>
        match dispatch_event T (dict_get "eventType" d) (dict_get_default "event" (JObj []) d) w with
        | (Return _, w) => (Return success_true, w)
        | (Raise e, w) => (Raise e, w)
        end
    | _ => (Raise (AttributeError ("'" +:+ type_name data +:+ "' object has no attribute 'get'")), w)
    end).

Definition _setup_ipc_handlers (P : Plugin) : Plugin :=
  on_request "dispatchEvent" dispatch_event_handler
    (on_request "dispatchTask" dispatch_task_handler
       (on_request "dispatchCommand" dispatch_command_handler P)).

(** Running a task created by [asyncio.create_task]. *)
Definition run_task (P : Plugin) (co : Coroutine) : M unit :=
  match co with
  | CoHandleRequest message => _handle_request P message
  | CoHandleEvent message => _handle_event P message
  | CoRegisterCommandRemote command options =>
      fun w =>
        match _register_command_remote command options w with
        | (Return _, w) => (Return tt, w)
        | (Raise e, w) => (Raise e, w)
        end
  end.

(** *** [get_detailed_info] *)

(** The objects of a plugin that the returned dict can refer to.  Their
    attributes are bound once, in [__init__], and afterwards the objects
    are only changed in place, so that a reference always reads what the
    attribute holds now. *)
Inductive ObjRef : Type :=
| InfoObj
| StatisticsObj
| PerformanceObj (k : PerfKind).

Inductive ObjVal : Type :=
| InfoVal (i : PluginInfo)
| StatisticsVal (st : Statistics)
| PerformanceVal (m : gmap string PerfRecord).

Definition deref (r : ObjRef) (s : PluginBase) : ObjVal :=
  match r with
  | InfoObj => InfoVal (info s)
  | StatisticsObj => StatisticsVal (statistics s)
  | PerformanceObj k => PerformanceVal (perf_map k (performance s))
  end.

(** The dict returned by [get_detailed_info].  [O] is what stands at the
    keys whose value is an object of the plugin: a reference in the dict
    itself, the content for somebody who reads the dict. *)
Record DetailedInfo (O : Type) : Type := {
  basic : O;
  status_is_enabled : bool;
  status_last_activity : Q;
  commands : list string;
  events : list string;
  tasks_info : list TaskInfo;
  recent_errors : list ErrorInfo;
  statistics_info : O;
  commandPerformance : O;
  eventPerformance : O;
  taskPerformance : O;
  avgExecutionTime : Q;
  concurrentRequests : Z;
  maxConcurrentRequests : Z;
  warnings : list string;
  isHealthy : bool
}.
Arguments basic {O} d.
Arguments status_is_enabled {O} d.
Arguments status_last_activity {O} d.
Arguments commands {O} d.
Arguments events {O} d.
Arguments tasks_info {O} d.
Arguments recent_errors {O} d.
Arguments statistics_info {O} d.
Arguments commandPerformance {O} d.
Arguments eventPerformance {O} d.
Arguments taskPerformance {O} d.
Arguments avgExecutionTime {O} d.
Arguments concurrentRequests {O} d.
Arguments maxConcurrentRequests {O} d.
Arguments warnings {O} d.
Arguments isHealthy {O} d.

Definition sum_Q (l : list Q) : Q := fold_left Qplus l 0%Q.
Definition sum_Z (l : list Z) : Z := fold_left Z.add l 0.

Definition _calculate_avg_execution_time (s : PluginBase) : Q :=
  let all_performance :=
    ((map_to_list (command_performance (performance s))).*2 ++
     (map_to_list (event_performance (performance s))).*2 ++
     (map_to_list (task_performance (performance s))).*2)%list in
  match all_performance with
  | [] => 0%Q
  | _ =>
      let total_duration := sum_Q (total_duration <$> all_performance) in
      let total_executions := sum_Z (total_executions <$> all_performance) in
      if decide (0 < total_executions) then (total_duration / inject_Z total_executions)%Q
      else 0%Q
  end.

(** [l[-n:]]. *)
Definition last_n {A : Type} (n : nat) (l : list A) : list A := drop (length l - n) l.

(** The keys of the tables and the task entries are listed in the order of
    the finite maps, not in insertion order. *)
Definition get_detailed_info (T : Tables) (s : PluginBase) : DetailedInfo ObjRef :=
  {| basic := InfoObj;
     status_is_enabled := is_enabled s;
     status_last_activity := last_activity s;
     commands := (map_to_list (_command_handlers T)).*1;
     events := (map_to_list (_event_handlers T)).*1;
     tasks_info := (map_to_list (_scheduled_tasks s)).*2;
     recent_errors := last_n 10 (errors s);
     statistics_info := StatisticsObj;
     commandPerformance := PerformanceObj CommandPerf;
     eventPerformance := PerformanceObj EventPerf;
     taskPerformance := PerformanceObj TaskPerf;
     avgExecutionTime := _calculate_avg_execution_time s;
     concurrentRequests := _concurrent_operations s;
     maxConcurrentRequests := _max_concurrent_operations s;
     warnings := [];
     isHealthy := true |}.

(** What somebody holding the dict [d] reads in it when the plugin is in
    state [s]. *)
Definition read_info (d : DetailedInfo ObjRef) (s : PluginBase) : DetailedInfo ObjVal :=
  {| basic := deref (basic d) s;
     status_is_enabled := status_is_enabled d;
     status_last_activity := status_last_activity d;
     commands := commands d;
     events := events d;
     tasks_info := tasks_info d;
     recent_errors := recent_errors d;
     statistics_info := deref (statistics_info d) s;
     commandPerformance := deref (commandPerformance d) s;
     eventPerformance := deref (eventPerformance d) s;
     taskPerformance := deref (taskPerformance d) s;
     avgExecutionTime := avgExecutionTime d;
     concurrentRequests := concurrentRequests d;
     maxConcurrentRequests := maxConcurrentRequests d;
     warnings := warnings d;
     isHealthy := isHealthy d |}.

(** *** Construction *)

(** [IPCClient.__init__]. *)
Definition new_ipc_client : IPCClient :=
  {| pending_requests := ∅; running := false |}.

(** [PluginBase.__init__], created at time [now]. *)
Definition new_plugin_base (plugin_info : PluginInfo) (now : Q) : PluginBase :=
  {| info := plugin_info;
     is_enabled := false;
     statistics := {| command_executions := 0; events_handled := 0;
                      tasks_executed := 0; errors_occurred := 0 |};
     performance := {| command_performance := ∅; event_performance := ∅;
                       task_performance := ∅ |};
     last_activity := now;
     errors := [];
     _concurrent_operations := 0;
     _max_concurrent_operations := 0;
     _scheduled_tasks := ∅;
     logger := [{| level := Debug; text := "全局错误处理器已启用" |}];
     attrs := ∅ |}.

Definition new_tables : Tables :=
  {| _command_handlers := ∅; _event_handlers := ∅; _task_handlers := ∅ |}.

Definition new_plugin : Plugin :=
  {| event_handlers := ∅; tables := new_tables |}.

(** A process that has written nothing and created nothing yet. *)
Definition new_process (now : Q) (ids : nat -> string) (inbound : nat -> list Dict) : Process :=
  {| clock := now; uuid4 := ids; drawn := 0%nat; arrivals := inbound; waits := 0%nat;
     stdout := []; stderr := []; futures := []; tasks := [] |}.

Definition new_world (plugin_info : PluginInfo) (now : Q) (ids : nat -> string)
    (inbound : nat -> list Dict) : World :=
  {| proc := new_process now ids inbound; ipc := new_ipc_client;
     self := new_plugin_base plugin_info now |}.

(** *** Sequences of recordings *)

(** A call of one of the two recorders, through the methods a plugin and
    the wrappers use. *)
Inductive Recording : Type :=
| RecError (error_type source : string) (error : PyExn)
| RecPerformance (perf_type name : string) (duration : Q) (success : bool).

Definition record (r : Recording) (w : World) : World :=
  match r with
  | RecError error_type source error => _record_error error_type source error w
  | RecPerformance perf_type name duration success =>
      _record_performance perf_type name duration success w
  end.

Definition record_all (rs : list Recording) (w : World) : World :=
  fold_left (fun w r => record r w) rs w.

(** The rolling window kept for [name] in the map [k]; empty as long as
    the name has no record. *)
Definition window (k : PerfKind) (name : string) (w : World) : list Sample :=
  match perf_map k (performance (self w)) !! name with
  | Some perf => last_executions perf
  | None => []
  end.

#[global] Instance PerfKind_eq_dec : EqDecision PerfKind.
Proof. solve_decision. Defined.

(** *** Vocabulary of the statements about the IPC client *)

(** [message] is a response whose id is [msg_id]. *)
Definition is_response_to (msg_id : string) (message : Dict) : bool :=
  is_str "response" (dict_get "type" message) && is_str msg_id (dict_get "id" message).

(** The lines written between two states, to stderr and by the logger. *)
Definition lines_written (before after : World) : list LogLine :=
  drop (length (stderr (proc before))) (stderr (proc after)) ++
  drop (length (logger (self before))) (logger (self after)).

(** The registry is well formed when every future it holds exists and is
    still pending, and no two request ids share a future. *)
Definition registry_wf (w : World) : Prop :=
  (∀ msg_id future, pending_requests (ipc w) !! msg_id = Some future →
                    futures (proc w) !! future = Some Pending)
  ∧ (∀ id1 id2 future, pending_requests (ipc w) !! id1 = Some future →
                       pending_requests (ipc w) !! id2 = Some future → id1 = id2).

(** What the IPC client does between two moments: a coroutine sends a
    request and awaits it, or the intake loop handles a message. *)
Inductive IpcStep : Type :=
| StepSend (action : string) (data : JSON) (timeout : Q)
| StepIntake (message : Dict).

Definition ipc_step (st : IpcStep) (w : World) : World :=
  match st with
  | StepSend action data timeout => snd (send_request action data timeout w)
  | StepIntake message => intake message w
  end.

(** Requests sent one after the other, each awaited before the next. *)
Fixpoint send_requests (reqs : list (string * JSON * Q)) (w : World)
    : list (Outcome JSON) * World :=
  match reqs with
  | [] => ([], w)
  | (action, data, timeout) :: rest =>
      let '(o, w) := send_request action data timeout w in
      let '(os, w) := send_requests rest w in
      (o :: os, w)
  end.

(** *** Vocabulary of the statements about the wrappers *)

(** One call of a handler through the wrapper installed for it at
    registration: a command, an event handler or a scheduled task. *)
Inductive Invocation : Type :=
| InvokeCommand (command : string) (handler : JSON -> JSON -> M JSON) (event args : JSON)
| InvokeEvent (event_type : string) (handler : JSON -> M JSON) (event : JSON)
| InvokeTask (name : string) (handler : M JSON).

(** The call of the plugin's own handler inside the wrapper. *)
Definition underlying (i : Invocation) : M JSON :=
  match i with
  | InvokeCommand _ handler event args => handler event args
  | InvokeEvent _ handler event => handler event
  | InvokeTask _ handler => handler
  end.

(** The call as the dispatcher makes it. *)
Definition invoke (i : Invocation) : M unit :=
  match i with
  | InvokeCommand command handler event args =>
      command_wrapped_handler command handler event args
  | InvokeEvent event_type handler event => event_wrapped_handler event_type handler event
  | InvokeTask name handler => task_wrapped_handler name handler
  end.

(** The performance map and the name under which the wrappers of commands
    and events record the call; the category counts the task. *)
Definition invocation_kind (i : Invocation) : PerfKind :=
  match i with
  | InvokeCommand _ _ _ _ => CommandPerf
  | InvokeEvent _ _ _ => EventPerf
  | InvokeTask _ _ => TaskPerf
  end.

Definition invocation_name (i : Invocation) : string :=
  match i with
  | InvokeCommand command _ _ _ => command
  | InvokeEvent event_type _ _ => event_type
  | InvokeTask name _ => name
  end.

(** The state in which the wrapper calls the handler. *)
Definition state_at_call (i : Invocation) (w : World) : World :=
  match i with
  | InvokeCommand _ _ _ _ => enter_wrapper count_command w
  | InvokeEvent _ _ _ => enter_wrapper count_event w
  | InvokeTask name _ =>
      let w := upd_self (fun s => set_last_activity (clock (proc w)) s) w in
      let w := upd_self (fun s => set_statistics (count_task (statistics s)) s) w in
      upd_self (fun s => set_scheduled_tasks
                           (alter (task_ran (clock (proc w))) name (_scheduled_tasks s)) s) w
  end.

(** The state after the [except] block, when the handler has left the
    state [w] with outcome [o]. *)
Definition state_after_except (i : Invocation) (o : Outcome JSON) (w : World) : World :=
  match o with
  | Return _ => w
  | Raise error =>
      if exn_is_Exception error then
        match i with
        | InvokeCommand command _ event _ =>
            notify_failure command error event
              (_PluginBase__record_error_internal "command" command error w)
        | InvokeEvent event_type _ _ =>
            _PluginBase__record_error_internal "event" event_type error w
        | InvokeTask name _ => _record_error "task" name error w
        end
      else w
  end.

(** The states an invocation goes through: before the call of the wrapper,
    when the handler is called, when it has ended, after the [except]
    block and at the end. *)
Definition invoke_states (i : Invocation) (w : World) : list World :=
  let w1 := state_at_call i w in
  let '(o, w2) := underlying i w1 in
  [w; w1; w2; state_after_except i o w2; snd (invoke i w)].

(** The states of a sequence of invocations made one after the other. *)
Fixpoint run_states (calls : list Invocation) (w : World) : list World :=
  match calls with
  | [] => [w]
  | i :: rest => invoke_states i w ++ run_states rest (snd (invoke i w))
  end.

(** What the wrapper of an invocation adds to the concurrency counter
    before it calls the handler and takes off in its [finally] block. *)
Definition counted (i : Invocation) : Z :=
  match i with
  | InvokeCommand _ _ _ _ | InvokeEvent _ _ _ => 1
  | InvokeTask _ _ => 0
  end.

(** The invocation awaits the host in its [except] block: a command
    whose handler raised an [Exception] sends the failure notice when the
    event has a [get], and waits for the answer. *)
Definition awaits_notice (i : Invocation) (o : Outcome JSON) : bool :=
  match i, o with
  | InvokeCommand _ _ (JObj _) _, Raise error => exn_is_Exception error
  | _, _ => false
  end.

(** ** A concrete plugin for the examples *)

Definition demo_info : PluginInfo :=
  {| plugin_id := "example-python-plugin"; plugin_name := Some "Python示例插件" |}.

Definition demo_ids (n : nat) : string := "req-" +:+ pretty n.

(** A new plugin in a process to which the host sends nothing. *)
Definition demo_world : World :=
  new_world demo_info 1700000000 demo_ids (fun _ => []).

(** The plugin with the three dispatch requests registered. *)
Definition demo_plugin : Plugin := _setup_ipc_handlers new_plugin.

(** A request of the host that carries no id. *)
Definition request_without_id : Dict :=
  [("type", JStr "request"); ("action", JStr "dispatchCommand");
   ("data", JObj [("command", JStr "pyhello")]); ("timestamp", JInt 1700000000)].

(** A response to a request nobody is waiting for. *)
Definition stray_response : Dict :=
  [("id", JStr "req-7"); ("type", JStr "response"); ("data", JObj []);
   ("timestamp", JInt 1700000000)].

(** A process in which, while the first request waits, the host sends a
    response nobody awaits and a request without id, and nothing later. *)
Definition busy_world : World :=
  new_world demo_info 1700000000 demo_ids
    (fun n => match n with O => [stray_response; request_without_id] | _ => [] end).

Definition two_requests : list (string * JSON * Q) :=
  [("callApi", JObj [("action", JStr "send_private_msg")], 30%Q);
   ("storage.get", JNull, 5%Q)].

(** A command handler that takes 10 ms and counts its greetings in an
    attribute of the plugin. *)
Definition handle_hello : JSON -> JSON -> M JSON :=
  fun event args w =>
    (Return JNull,
     upd_proc (fun p => set_clock (clock p + (1 # 100))%Q p)
       (upd_self (fun s => set_attrs (<["greeting_count" := JInt 1]> (attrs s)) s) w)).

(** A handler that fails after 5 ms. *)
Definition handle_broken : JSON -> JSON -> M JSON :=
  fun event args w =>
    (Raise {| exn_class := "ValueError"; exn_is_Exception := true;
              exn_message := "bad argument"; exn_traceback := "Traceback ..." |},
     upd_proc (fun p => set_clock (clock p + (5 # 1000))%Q p) w).

(** A task that takes 20 ms. *)
Definition hourly_task : M JSON :=
  fun w => (Return JNull, upd_proc (fun p => set_clock (clock p + (2 # 100))%Q p) w).

(** The event of a private message of user 42. *)
Definition demo_event : JSON :=
  JObj [("user_id", JInt 42); ("message_type", JStr "private");
        ("raw_message", JStr "/pyhello")].

(** The example plugin after [register_command('pyhello', ...)] and
    [register_command('pybroken', ...)]. *)
Definition demo_registered : Plugin * World :=
  let '(P, w) := register_command "pyhello" handle_hello [] demo_plugin demo_world in
  register_command "pybroken" handle_broken [] P w.

(** A process whose host answers every request at once with
    [{'success': true}]. *)
Definition answering_world : World :=
  new_world demo_info 1700000000 demo_ids
    (fun n => [[("id", JStr (demo_ids n)); ("type", JStr "response");
                ("data", success_true); ("timestamp", JInt 1700000000)]]).

(** The example plugin after [await self.schedule('hourly_stats', ...)]. *)
Definition demo_scheduled : Outcome unit * Plugin * World :=
  schedule "hourly_stats" "0 0 * * * *" hourly_task demo_plugin answering_world.

(** ** [storage.py]

    The storage of a plugin is kept by the host: every operation is a
    request over the IPC client, with the default deadline of 30 seconds. *)

(** [Storage]: the plugin id is the one given at construction; the IPC
    client is the one of the process. *)
Record Storage : Type := { storage_plugin_id : string }.

(** [Storage(plugin_info['id'], self.ipc)], as [PluginBase.__init__] makes it. *)
Definition new_storage (plugin_info : PluginInfo) : Storage :=
  {| storage_plugin_id := plugin_id plugin_info |}.

(** The data of a storage request. *)
Definition storage_data (self_storage : Storage) (fields : Dict) : JSON :=
  JObj (("plugin_id", JStr (storage_plugin_id self_storage)) :: fields).

(** [Storage.get]. *)
Definition storage_get (self_storage : Storage) (key : string) (default_value : JSON) : M JSON :=
  fun w =>
    match send_request "storage.get" (storage_data self_storage [("key", JStr key)]) 30 w with
    | (Return result, w) =>
        (Return (match result with JNull => default_value | _ => result end), w)
    | (Raise e, w) =>
        if exn_is_Exception e then (Return default_value, w) else (Raise e, w)
    end.

(** [Storage.set]. *)
Definition storage_set (self_storage : Storage) (key : string) (value : JSON) : M JSON :=
  fun w =>
    match send_request "storage.set"
            (storage_data self_storage [("key", JStr key); ("value", value)]) 30 w with
    | (Return _, w) => (Return (JBool true), w)
    | (Raise e, w) =>
        if exn_is_Exception e then (Return (JBool false), w) else (Raise e, w)
    end.

(** [Storage.delete]. *)
Definition storage_delete (self_storage : Storage) (key : string) : M JSON :=
  fun w =>
    match send_request "storage.delete" (storage_data self_storage [("key", JStr key)]) 30 w with
    | (Return _, w) => (Return (JBool true), w)
    | (Raise e, w) =>
        if exn_is_Exception e then (Return (JBool false), w) else (Raise e, w)
    end.

(** [Storage.has]: the answer of the host as it comes. *)
Definition storage_has (self_storage : Storage) (key : string) : M JSON :=
  fun w =>
    match send_request "storage.has" (storage_data self_storage [("key", JStr key)]) 30 w with
    | (Return result, w) => (Return result, w)
    | (Raise e, w) =>
        if exn_is_Exception e then (Return (JBool false), w) else (Raise e, w)
    end.

(** [Storage.keys]. *)
Definition storage_keys (self_storage : Storage) : M JSON :=
  fun w =>
    match send_request "storage.keys" (storage_data self_storage []) 30 w with
    | (Return result, w) => (Return (or_empty_list result), w)
    | (Raise e, w) =>
        if exn_is_Exception e then (Return (JArr []), w) else (Raise e, w)
    end.

(** [Storage.clear]. *)
Definition storage_clear (self_storage : Storage) : M JSON :=
  fun w =>
    match send_request "storage.clear" (storage_data self_storage []) 30 w with
    | (Return _, w) => (Return (JBool true), w)
    | (Raise e, w) =>
        if exn_is_Exception e then (Return (JBool false), w) else (Raise e, w)
    end.

(** [PluginBase.get_config] and [PluginBase.set_config]; [self_storage]
    is [self.storage]. *)
Definition get_config (self_storage : Storage) (key : string) (default_value : JSON) : M JSON :=
  storage_get self_storage ("config." +:+ key) default_value.

Definition set_config (self_storage : Storage) (key : string) (value : JSON) : M JSON :=
  storage_set self_storage ("config." +:+ key) value.

(** ** [plugin_context.py] *)

(** [PluginContext.emit_event]. *)
Definition emit_event (event_type : string) (data : JSON) : M unit :=
  send_event "customEvent" (JObj [("event_type", JStr event_type); ("data", data)]).

(** [PluginContext.notify]: the answer of the host is not returned. *)
Definition notify (notification_type : string) (data : JSON) : M unit :=
  fun w =>
    match send_request "notify"
            (JObj [("type", JStr notification_type); ("data", data)]) 30 w with
    | (Return _, w) => (Return tt, w)
    | (Raise e, w) => (Raise e, w)
    end.

(** ** More vocabulary *)

(** The values whose [str()] is the text [py_str] gives: [None], the
    booleans, the integers and the strings. *)
Definition str_is_exact (x : JSON) : bool :=
  match x with
  | JNull | JBool _ | JInt _ | JStr _ => true
  | JFloat _ | JArr _ | JObj _ => false
  end.

(** The task that [_handle_message] creates for [message], if any. *)
Definition task_of (message : Dict) : list Coroutine :=
  if is_str "response" (dict_get "type" message) then []
  else if is_str "request" (dict_get "type" message) then [CoHandleRequest message]
  else if is_str "event" (dict_get "type" message) then [CoHandleEvent message]
  else [].


(** What the caller of [send_request] gets from the response [message]. *)
Definition outcome_of_response (message : Dict) : Outcome JSON :=
  if truthy (dict_get "error" message)
  then Raise (Exception (py_str (dict_get "error" message)))
  else Return (dict_get "data" message).

(** Event handlers registered one after the other for the same type. *)
Fixpoint register_events (event_type : string) (handlers : list (JSON -> M JSON))
    (P : Plugin) (w : World) : Plugin * World :=
  match handlers with
  | [] => (P, w)
  | handler :: rest =>
      let '(P, w) := register_event event_type handler P w in
      register_events event_type rest P w
  end.

(** The number of error recordings in a sequence of recordings. *)
Definition is_error_recording (r : Recording) : bool :=
  match r with
  | RecError _ _ _ => true
  | RecPerformance _ _ _ _ => false
  end.

Definition count_errors (rs : list Recording) : nat :=
  length (List.filter is_error_recording rs).

(** The state in which the response [message] leaves the future of the
    request it answers. *)
Definition settled_by (message : Dict) : Future :=
  if truthy (dict_get "error" message)
  then Failed (Exception (py_str (dict_get "error" message)))
  else Result (dict_get "data" message).



(** A process in which, while the first request waits, the host sends a
    request without id, then the response to the request, then a second
    response to it that carries an error. *)
Definition chatty_world : World :=
  new_world demo_info 1700000000 demo_ids
    (fun n => match n with
              | O => [request_without_id;
                      [("id", JStr "req-0"); ("type", JStr "response");
                       ("data", JObj [("value", JInt 5)])];
                      [("id", JStr "req-0"); ("type", JStr "response");
                       ("error", JStr "too late")]]
              | _ => []
              end).


(** Two event handlers of the example plugin: the first fails, the second
    counts the messages in an attribute. *)
Definition on_message_broken : JSON -> M JSON :=
  fun event w => handle_broken event (JArr []) w.

Definition on_message_count : JSON -> M JSON :=
  fun event w =>
    (Return JNull,
     upd_self (fun s => set_attrs (<["message_count" := JInt 1]> (attrs s)) s) w).

(** The example plugin after the two handlers have been registered for
    ['message'], the failing one first. *)
Definition demo_listening : Plugin * World :=
  register_events "message" [on_message_broken; on_message_count] demo_plugin demo_world.

(** The [task_info] of a task that has just been scheduled. *)
Definition new_task_info (name cron : string) : TaskInfo :=
  {| task_name := name; task_cron := cron; execution_count := 0;
     last_executed := None; is_active := true |}.

(** A task that fails. *)
Definition broken_task : M JSON := fun w => handle_broken JNull JNull w.

(** A plugin whose task ['nightly'] is scheduled and fails when it runs. *)
Definition nightly_tables : Tables :=
  set_task_handlers {["nightly" := task_wrapped_handler "nightly" broken_task]} new_tables.

Definition nightly_world : World :=
  upd_self (set_scheduled_tasks {["nightly" := new_task_info "nightly" "0 3 * * *"]})
    demo_world.

(** The executions recorded for [name] in the map [k]: the performance
    recordings of that name and kind whose duration is not negative. *)
Definition is_execution (k : PerfKind) (name : string) (r : Recording) : bool :=
  match r with
  | RecError _ _ _ => false
  | RecPerformance perf_type name' duration _ =>
      bool_decide (perf_kind perf_type = k ∧ name' = name) && Qle_bool 0 duration
  end.

Definition count_executions (k : PerfKind) (name : string) (rs : list Recording) : nat :=
  length (List.filter (is_execution k name) rs).

(** The durations of a record: the shortest and the longest, and those
    of the window between them. *)
Definition durations_bounded (perf : PerfRecord) : Prop :=
  ∃ shortest,
    min_duration perf = Some shortest
    ∧ (0 <= shortest)%Q
    ∧ (shortest <= max_duration perf)%Q
    ∧ Forall (fun sample => (shortest <= sample_duration sample)%Q
                            ∧ (sample_duration sample <= max_duration perf)%Q)
        (last_executions perf).






(** ** [cq_parser.py] *)


(** [text.startswith(pattern)]. *)
Fixpoint startswith (pattern text : string) : bool :=
  match pattern, text with
  | EmptyString, _ => true
  | String _ _, EmptyString => false
  | String a pattern, String c text => Ascii.eqb a c && startswith pattern text
  end.

(** [text.replace(old, new)]: the occurrences of [old] are found from left
    to right and do not overlap; [skip] is the number of characters of the
    occurrence just replaced that are still to be passed over.  An empty
    [old] matches before every character and at the end. *)
Fixpoint replace_from (old new : string) (skip : nat) (text : string) : string :=
  match text with
  | EmptyString => if String.eqb old "" then new else ""
  | String c rest =>
      match skip with
      | S skip => replace_from old new skip rest
      | O =>
          if String.eqb old "" then new +:+ String c (replace_from old new 0 rest)
          else if startswith old text
               then new +:+ replace_from old new (String.length old - 1) rest
               else String c (replace_from old new 0 rest)
      end
  end.

Definition replace (old new text : string) : string := replace_from old new 0 text.

(** [CQParser._escape] and [CQParser._unescape]. *)
Definition _escape (text : string) : string :=
  replace "," "&#44;" (replace "]" "&#93;" (replace "[" "&#91;" (replace "&" "&amp;" text))).

Definition _unescape (text : string) : string :=
  replace "&#44;" "," (replace "&#93;" "]" (replace "&#91;" "[" (replace "&amp;" "&" text))).

(** [pattern in text]. *)
Fixpoint occurs (pattern text : string) : bool :=
  match text with
  | EmptyString => startswith pattern ""
  | String _ rest => startswith pattern text || occurs pattern rest
  end.

(** [c in text]. *)
Fixpoint contains_char (c : ascii) (text : string) : bool :=
  match text with
  | EmptyString => false
  | String c' rest => Ascii.eqb c c' || contains_char c rest
  end.

(** The characters of [text] in order, each written as [code] has it. *)
Fixpoint encode (code : ascii → string) (text : string) : string :=
  match text with
  | EmptyString => ""
  | String c rest => code c +:+ encode code rest
  end.

(** The four stages of [_escape] and of [_unescape], by character: at
    stage [n] the first [n] of ['&'], ['['], [']'], [','] are written as
    their codes. *)
Definition stage_code (amp lbr rbr com : bool) (c : ascii) : string :=
  if Ascii.eqb c "&"%char then (if amp then "&amp;" else "&")
  else if Ascii.eqb c "["%char then (if lbr then "&#91;" else "[")
  else if Ascii.eqb c "]"%char then (if rbr then "&#93;" else "]")
  else if Ascii.eqb c ","%char then (if com then "&#44;" else ",")
  else String c "".


(** * Properties *)

(** ** The two recorders *)

Section Recorders.

Implicit Types (w : World) (k : PerfKind) (name : string).

Lemma perf_map_set_eq k m p : perf_map k (set_perf_map k m p) = m.
Proof. by destruct k. Qed.

Lemma perf_map_set_ne k k' m p : k ≠ k' → perf_map k' (set_perf_map k m p) = perf_map k' p.
Proof. by destruct k, k'. Qed.

(** The error log after one recording. *)
Lemma record_error_errors ty src e w :
  errors (self (_record_error ty src e w)) =
    let log := (errors (self w) ++ [error_info_of ty src e w])%list in
    if decide (100 < length log)%nat then tail log else log.
Proof.
  unfold _record_error, _PluginBase__record_error_internal. cbn.
  case_decide; cbn; reflexivity.
Qed.

Lemma record_error_performance ty src e w :
  performance (self (_record_error ty src e w)) = performance (self w).
Proof.
  unfold _record_error, _PluginBase__record_error_internal. cbn.
  by case_decide.
Qed.

Lemma record_performance_errors pt name d ok w :
  errors (self (_record_performance pt name d ok w)) = errors (self w).
Proof.
  unfold _record_performance, _PluginBase__record_performance_internal.
  by destruct (Qle_bool 0 d).
Qed.

Lemma record_performance_dropped pt name d ok w :
  Qle_bool 0 d = false → _record_performance pt name d ok w = w.
Proof.
  intros Hd. unfold _record_performance, _PluginBase__record_performance_internal.
  by rewrite Hd.
Qed.

(** The performance maps after one recording that is not dropped. *)
Lemma record_performance_lookup pt name d ok w k name' :
  Qle_bool 0 d = true →
  perf_map k (performance (self (_record_performance pt name d ok w))) !! name' =
    if decide (k = perf_kind pt ∧ name' = name)
    then Some (add_sample (now_ms w) d ok
                 (default new_perf_record
                    (perf_map (perf_kind pt) (performance (self w)) !! name)))
    else perf_map k (performance (self w)) !! name'.
Proof.
  intros Hd. unfold _record_performance, _PluginBase__record_performance_internal.
  rewrite Hd. cbn.
  destruct (decide (k = perf_kind pt)) as [->|Hk].
  - rewrite perf_map_set_eq. destruct (decide (name' = name)) as [->|Hn].
    + rewrite lookup_insert_eq. by rewrite decide_True.
    + rewrite lookup_insert_ne by done. rewrite decide_False; [done | by intros [? ?]].
  - rewrite perf_map_set_ne by done. rewrite decide_False; [done | by intros [? ?]].
Qed.

(** The sample appended by a recording made in state [w]. *)
Lemma window_record_performance pt name d ok w :
  Qle_bool 0 d = true →
  window (perf_kind pt) name (_record_performance pt name d ok w) =
    let samples :=
      (window (perf_kind pt) name w ++
       [{| sample_timestamp := now_ms w; sample_duration := d; sample_success := ok |}])%list in
    if decide (20 < length samples)%nat then tail samples else samples.
Proof.
  intros Hd. unfold window at 1.
  rewrite record_performance_lookup by done.
  rewrite decide_True by done. cbn.
  unfold window. by destruct (perf_map _ _ !! name).
Qed.

Lemma window_record_performance_other pt name d ok w k name' :
  ¬ (k = perf_kind pt ∧ name' = name) →
  window k name' (_record_performance pt name d ok w) = window k name' w.
Proof.
  intros Hne. destruct (Qle_bool 0 d) eqn:Hd.
  - unfold window. rewrite record_performance_lookup by done.
    by rewrite decide_False.
  - by rewrite record_performance_dropped.
Qed.

Lemma window_record_error ty src e w k name :
  window k name (_record_error ty src e w) = window k name w.
Proof. unfold window. by rewrite record_error_performance. Qed.

Lemma tail_app_length {A} (l : list A) (x : A) (n : nat) :
  (length l ≤ n)%nat →
  (length (if decide (n < length (l ++ [x]))%nat then tail (l ++ [x]) else l ++ [x]) ≤ n)%nat.
Proof.
  intros Hl. case_decide as Hlt.
  - destruct l; cbn in *; [lia|]. rewrite length_app. cbn. lia.
  - lia.
Qed.

(** Both caps are kept by one recording. *)
Lemma record_keeps_caps r w :
  (length (errors (self w)) ≤ 100)%nat →
  (∀ k name, (length (window k name w) ≤ 20)%nat) →
  (length (errors (self (record r w))) ≤ 100)%nat ∧
  (∀ k name, (length (window k name (record r w)) ≤ 20)%nat).
Proof.
  intros He Hw. destruct r as [ty src e | pt n d ok]; cbn [record].
  - split.
    + rewrite record_error_errors. cbn zeta. by apply tail_app_length.
    + intros k name. by rewrite window_record_error.
  - split.
    + by rewrite record_performance_errors.
    + intros k name.
      destruct (decide (k = perf_kind pt ∧ name = n)) as [[-> ->]|Hne].
      * destruct (Qle_bool 0 d) eqn:Hd.
        -- rewrite window_record_performance by done. cbn zeta.
           by apply tail_app_length.
        -- by rewrite record_performance_dropped.
      * by rewrite window_record_performance_other.
Qed.

Lemma record_all_keeps_caps rs w :
  (length (errors (self w)) ≤ 100)%nat →
  (∀ k name, (length (window k name w) ≤ 20)%nat) →
  (length (errors (self (record_all rs w))) ≤ 100)%nat ∧
  (∀ k name, (length (window k name (record_all rs w)) ≤ 20)%nat).
Proof.
  revert w. induction rs as [|r rs IH]; intros w He Hw; [done|].
  cbn. destruct (record_keeps_caps r w He Hw) as [He' Hw'].
  by apply IH.
Qed.

Lemma evict_oldest {A} (l : list A) (x : A) (n : nat) :
  (length l ≤ n)%nat → (0 < n)%nat →
  (if decide (n < length (l ++ [x]))%nat then tail (l ++ [x]) else l ++ [x]) =
  (if decide (length l = n) then tail l ++ [x] else l ++ [x])%list.
Proof.
  intros Hl Hn. rewrite length_app. cbn.
  destruct l as [|y l]; cbn in *.
  - rewrite decide_False by lia. by rewrite decide_False by lia.
  - case_decide; case_decide; try lia; done.
Qed.

(** C7.  After any sequence of error and performance recordings on a new
    plugin, the error log holds at most 100 entries and every rolling
    window at most 20; the next recording appends its entry at the end
    and, when the log (the window) is full, removes the entry at the
    front, which is the oldest. *)
Theorem recordings_capped_oldest_evicted
    (plugin_info : PluginInfo) (now : Q) (ids : nat → string)
    (inbound : nat → list Dict) (rs : list Recording) :
  let w := record_all rs (new_world plugin_info now ids inbound) in
  (length (errors (self w)) ≤ 100)%nat
  ∧ (∀ k name, (length (window k name w) ≤ 20)%nat)
  ∧ (∀ ty src e,
       errors (self (_record_error ty src e w)) =
         if decide (length (errors (self w)) = 100%nat)
         then (tail (errors (self w)) ++ [error_info_of ty src e w])%list
         else (errors (self w) ++ [error_info_of ty src e w])%list)
  ∧ (∀ pt name d ok,
       window (perf_kind pt) name (_record_performance pt name d ok w) =
         let sample := {| sample_timestamp := now_ms w; sample_duration := d;
                          sample_success := ok |} in
         if Qle_bool 0 d then
           if decide (length (window (perf_kind pt) name w) = 20%nat)
           then (tail (window (perf_kind pt) name w) ++ [sample])%list
           else (window (perf_kind pt) name w ++ [sample])%list
         else window (perf_kind pt) name w).
Proof.
  intros w.
  destruct (record_all_keeps_caps rs (new_world plugin_info now ids inbound))
    as [He Hw];
    [cbn; lia | intros k name; unfold window; destruct k; cbn; rewrite lookup_empty; cbn; lia |].
  fold w in He, Hw. split; [exact He | split; [exact Hw | split]].
  - intros ty src e. rewrite record_error_errors. cbn zeta.
    apply evict_oldest; [done | lia].
  - intros pt name d ok. cbn zeta. destruct (Qle_bool 0 d) eqn:Hd.
    + rewrite window_record_performance by done. cbn zeta.
      apply evict_oldest; [done | lia].
    + by rewrite record_performance_dropped.
Qed.

(** What C8 asks of a stored record. *)
Lemma add_sample_consistent ts d ok (perf : PerfRecord) :
  total_executions perf = successful_executions perf + failed_executions perf →
  avg_duration (add_sample ts d ok perf) =
    (total_duration (add_sample ts d ok perf)
     / inject_Z (total_executions (add_sample ts d ok perf)))%Q
  ∧ total_executions (add_sample ts d ok perf) =
      successful_executions (add_sample ts d ok perf)
      + failed_executions (add_sample ts d ok perf).
Proof.
  intros Hsum. split; [reflexivity|].
  unfold add_sample; cbn. destruct ok; lia.
Qed.

Lemma record_keeps_consistent r w :
  (∀ k name perf, perf_map k (performance (self w)) !! name = Some perf →
     avg_duration perf = (total_duration perf / inject_Z (total_executions perf))%Q
     ∧ total_executions perf = successful_executions perf + failed_executions perf) →
  ∀ k name perf, perf_map k (performance (self (record r w))) !! name = Some perf →
     avg_duration perf = (total_duration perf / inject_Z (total_executions perf))%Q
     ∧ total_executions perf = successful_executions perf + failed_executions perf.
Proof.
  intros Hinv k name perf. destruct r as [ty src e | pt n d ok]; cbn [record].
  - rewrite record_error_performance. apply Hinv.
  - destruct (Qle_bool 0 d) eqn:Hd.
    + rewrite record_performance_lookup by done.
      case_decide as Heq; [|apply Hinv].
      intros [= <-]. apply add_sample_consistent.
      destruct (perf_map (perf_kind pt) (performance (self w)) !! n) as [old|] eqn:Hold.
      * cbn. by apply (Hinv _ _ _ Hold).
      * reflexivity.
    + rewrite record_performance_dropped by done. apply Hinv.
Qed.

(** C8.  After any sequence of recordings on a new plugin, every stored
    performance record has [avg_duration = total_duration /
    total_executions] and [total_executions = successful_executions +
    failed_executions]. *)
Theorem performance_record_consistent
    (plugin_info : PluginInfo) (now : Q) (ids : nat → string)
    (inbound : nat → list Dict) (rs : list Recording)
    (k : PerfKind) (name : string) (perf : PerfRecord) :
  perf_map k (performance (self (record_all rs (new_world plugin_info now ids inbound))))
    !! name = Some perf →
  avg_duration perf = (total_duration perf / inject_Z (total_executions perf))%Q
  ∧ total_executions perf = successful_executions perf + failed_executions perf.
Proof.
  revert k name perf.
  assert (∀ w,
    (∀ k name perf, perf_map k (performance (self w)) !! name = Some perf →
       avg_duration perf = (total_duration perf / inject_Z (total_executions perf))%Q
       ∧ total_executions perf = successful_executions perf + failed_executions perf) →
    ∀ k name perf, perf_map k (performance (self (record_all rs w))) !! name = Some perf →
       avg_duration perf = (total_duration perf / inject_Z (total_executions perf))%Q
       ∧ total_executions perf = successful_executions perf + failed_executions perf)
    as Hall.
  { induction rs as [|r rs IH]; intros w Hinv; [exact Hinv|].
    cbn. apply IH. by apply record_keeps_consistent. }
  apply Hall. intros k name perf. destruct k; cbn; by rewrite lookup_empty.
Qed.

(** Two executions of the command [pyhello], one of them failed. *)
Lemma performance_record_consistent_witness :
  ∃ perf,
    perf_map CommandPerf
      (performance (self (record_all [RecPerformance "command" "pyhello" 12 true;
                                      RecPerformance "command" "pyhello" 30 false]
                            demo_world))) !! "pyhello" = Some perf
    ∧ total_executions perf = 2
    ∧ avg_duration perf = (total_duration perf / inject_Z (total_executions perf))%Q
    ∧ total_executions perf = successful_executions perf + failed_executions perf.
Proof.
  eexists. split; [vm_compute; reflexivity|].
  split; [reflexivity|].
  apply (performance_record_consistent demo_info 1700000000 demo_ids (fun _ => [])
           [RecPerformance "command" "pyhello" 12 true;
            RecPerformance "command" "pyhello" 30 false] CommandPerf "pyhello").
  vm_compute; reflexivity.
Defined.

End Recorders.

(** ** The IPC client *)

Section Router.

Implicit Types (w : World) (message : Dict) (P : Plugin).

Lemma lines_written_stderr w l :
  lines_written w (write_stderr l w) = [l].
Proof.
  unfold lines_written, write_stderr. cbn.
  by rewrite drop_app_length, drop_all.
Qed.

Lemma lines_written_stderr2 w l1 l2 :
  lines_written w (write_stderr l2 (write_stderr l1 w)) = [l1; l2].
Proof.
  unfold lines_written, write_stderr. cbn.
  by rewrite <- app_assoc, drop_app_length, drop_all.
Qed.

(** C10.  A request without an id field reaches no handler and gets no
    answer: [_handle_message] only queues the task that will treat it,
    and that task returns at the start of [_handle_request], whatever
    handlers are registered.  Nothing is written to stdout; the registry,
    the futures and the plugin object are unchanged; stderr receives the
    line written for every message and the line that reports the
    request. *)
Theorem request_without_id_dropped message w :
  is_str "request" (dict_get "type" message) = true →
  dict_lookup "id" message = None →
  ∃ w1 w2,
    _handle_message message w = (Return tt, w1)
    ∧ tasks (proc w1) = tasks (proc w) ++ [CoHandleRequest message]
    ∧ (∀ P, run_task P (CoHandleRequest message) w1 = (Return tt, w2))
    ∧ stdout (proc w2) = stdout (proc w)
    ∧ futures (proc w2) = futures (proc w)
    ∧ ipc w2 = ipc w
    ∧ self w2 = self w
    ∧ lines_written w w2 =
        [{| level := Info; text := "[IPC] 处理消息: type=request, id=None" |};
         {| level := Error; text := "[IPC Error] 收到没有ID的请求，忽略" |}].
Proof.
  intros Hty Hid.
  destruct (dict_get "type" message) as [| | | |ty| |] eqn:Hty'; try discriminate.
  apply String.eqb_eq in Hty as ->.
  eexists _, _. split.
  { unfold _handle_message. rewrite Hty'. unfold dict_get at 2 3. rewrite Hid.
    cbn. reflexivity. }
  split; [reflexivity|]. split.
  { intros P. cbn [run_task]. unfold _handle_request, dict_get. rewrite Hid.
    cbn. reflexivity. }
  repeat (split; [reflexivity|]).
  unfold _log_error, _log_info, create_task, lines_written. cbn.
  by rewrite <- app_assoc, drop_app_length, drop_all.
Qed.

Lemma request_without_id_dropped_witness :
  ∃ w1 w2,
    _handle_message request_without_id demo_world = (Return tt, w1)
    ∧ tasks (proc w1) = tasks (proc demo_world) ++ [CoHandleRequest request_without_id]
    ∧ (∀ P, run_task P (CoHandleRequest request_without_id) w1 = (Return tt, w2))
    ∧ stdout (proc w2) = stdout (proc demo_world)
    ∧ futures (proc w2) = futures (proc demo_world)
    ∧ ipc w2 = ipc demo_world
    ∧ self w2 = self demo_world
    ∧ lines_written demo_world w2 =
        [{| level := Info; text := "[IPC] 处理消息: type=request, id=None" |};
         {| level := Error; text := "[IPC Error] 收到没有ID的请求，忽略" |}].
Proof.
  apply (request_without_id_dropped request_without_id demo_world); reflexivity.
Defined.

(** The same holds for an id that is present but null, empty or zero. *)
Lemma request_with_falsy_id_dropped P message w :
  truthy (dict_get "id" message) = false →
  _handle_request P message w = (Return tt, _log_error "收到没有ID的请求，忽略" w).
Proof. intros Hid. unfold _handle_request. by rewrite Hid. Qed.

(** With an id and no handler for the action, the same request is
    answered by an error response. *)
Example request_with_id_answered :
  stdout (proc (snd (run_task demo_plugin
                       (CoHandleRequest (("id", JStr "h-1") :: request_without_id))
                       demo_world))) =
    [[("id", JStr "h-1"); ("type", JStr "response");
      ("error", JStr "Unknown command: pyhello"); ("timestamp", JFloat 1700000000)]].
Proof. vm_compute. reflexivity. Qed.

(** *** What [_handle_message] can do *)

(** The line written for every inbound message. *)
Lemma handle_message_cases message w :
  let w0 := _log_info ("处理消息: type=" +:+ py_str (dict_get "type" message)
                       +:+ ", id=" +:+ py_str (dict_get "id" message)) w in
  (∃ e, _handle_message message w = (Raise e, w0) ∧ exn_is_Exception e = true
        ∧ hashable (dict_get "id" message) = false)
  ∨ _handle_message message w = (Return tt, w0)
  ∨ (∃ s future v,
       is_response_to s message = true
       ∧ dict_get "id" message = JStr s
       ∧ pending_requests (ipc w) !! s = Some future
       ∧ _handle_message message w =
           complete future v
             (upd_ipc (fun c => set_pending_requests (delete s (pending_requests c)) c) w0))
  ∨ (∃ co, is_str "response" (dict_get "type" message) = false
           ∧ _handle_message message w = (Return tt, create_task co w0))
  ∨ (∃ text, is_str "response" (dict_get "type" message) = false
             ∧ _handle_message message w = (Return tt, _log_error text w0)).
Proof.
  intros w0. unfold _handle_message. fold w0.
  destruct (is_str "response" (dict_get "type" message)) eqn:Hresp.
  - destruct (truthy (dict_get "id" message)) eqn:Htruthy; [|by right; left].
    destruct (dict_get "id" message) as [| | | |s|items|fields] eqn:Hid;
      cbn [py_lookup]; try (by right; left).
    + change (pending_requests (ipc w0)) with (pending_requests (ipc w)).
      destruct (pending_requests (ipc w) !! s) as [future|] eqn:Hs; [|by right; left].
      right; right; left. cbn [py_str].
      assert (is_response_to s message = true) as Hto.
      { unfold is_response_to. rewrite Hresp, Hid. cbn. by rewrite String.eqb_refl. }
      destruct (truthy (dict_get "error" message)).
      * eexists s, future, _. by repeat split.
      * eexists s, future, _. by repeat split.
    + left. eexists. by repeat split.
    + left. eexists. by repeat split.
  - destruct (is_str "request" (dict_get "type" message)).
    { right; right; right; left. by eexists. }
    destruct (is_str "event" (dict_get "type" message)).
    { right; right; right; left. by eexists. }
    right; right; right; right. by eexists.
Qed.

(** C6, as the code has it.  A response whose identifier is missing,
    empty, or a string or other scalar that has no entry in the registry
    is discarded: [_handle_message] returns normally, the registry and
    every future are unchanged, nothing is sent and no task is created.
    The only line logged is the info line that every inbound message
    gets; nothing is logged at warning level. *)
Theorem unmatched_response_discarded message w :
  is_str "response" (dict_get "type" message) = true →
  (hashable (dict_get "id" message) = true ∨ truthy (dict_get "id" message) = false) →
  (∀ s, dict_get "id" message = JStr s → pending_requests (ipc w) !! s = None) →
  ∃ w',
    _handle_message message w = (Return tt, w')
    ∧ ipc w' = ipc w
    ∧ futures (proc w') = futures (proc w)
    ∧ stdout (proc w') = stdout (proc w)
    ∧ tasks (proc w') = tasks (proc w)
    ∧ self w' = self w
    ∧ lines_written w w' =
        [{| level := Info;
            text := "[IPC] 处理消息: type=response, id=" +:+ py_str (dict_get "id" message) |}]
    ∧ (∀ l, l ∈ lines_written w w' → level l ≠ Warn).
Proof.
  intros Hresp Hhash Hnone.
  assert (dict_get "type" message = JStr "response") as Hty.
  { destruct (dict_get "type" message); try discriminate.
    cbn in Hresp. by apply String.eqb_eq in Hresp as ->. }
  eexists. split.
  { destruct (handle_message_cases message w)
      as [(e & _ & _ & Hun) | [Hdisc | [(s & future & v & _ & Hid & Hs & _) | [(co & Hno & _) | (t & Hno & _)]]]].
    - destruct Hhash as [Hh | Hf]; [congruence|].
      unfold _handle_message. by rewrite Hresp, Hf.
    - exact Hdisc.
    - rewrite (Hnone s Hid) in Hs. discriminate.
    - congruence.
    - congruence. }
  rewrite Hty. cbn [py_str].
  repeat (split; [reflexivity|]).
  split.
  - apply lines_written_stderr.
  - intros l. unfold _log_info. rewrite lines_written_stderr.
    intros ->%list_elem_of_singleton. discriminate.
Qed.

Lemma unmatched_response_discarded_witness :
  ∃ w',
    _handle_message stray_response demo_world = (Return tt, w')
    ∧ ipc w' = ipc demo_world
    ∧ futures (proc w') = futures (proc demo_world)
    ∧ stdout (proc w') = stdout (proc demo_world)
    ∧ tasks (proc w') = tasks (proc demo_world)
    ∧ self w' = self demo_world
    ∧ lines_written demo_world w' =
        [{| level := Info; text := "[IPC] 处理消息: type=response, id=req-7" |}]
    ∧ (∀ l, l ∈ lines_written demo_world w' → level l ≠ Warn).
Proof.
  apply (unmatched_response_discarded stray_response demo_world).
  - reflexivity.
  - left. reflexivity.
  - intros s [= <-]. reflexivity.
Defined.

(** C6 as it is stated fails on its last part: the response to a request
    that nobody awaits is dropped and no line at warning level is
    written. *)
Lemma stray_response_not_warned :
  pending_requests (ipc demo_world) !! "req-7" = None
  ∧ fst (_handle_message stray_response demo_world) = Return tt
  ∧ ¬ ∃ l, l ∈ lines_written demo_world (snd (_handle_message stray_response demo_world))
           ∧ level l = Warn.
Proof.
  split; [reflexivity|]. split; [reflexivity|].
  intros (l & Hl & Hwarn).
  change (snd (_handle_message stray_response demo_world))
    with (_log_info "处理消息: type=response, id=req-7" demo_world) in Hl.
  unfold _log_info in Hl. rewrite lines_written_stderr in Hl.
  apply list_elem_of_singleton in Hl. subst l. discriminate.
Qed.

End Router.

(** The cases of [handle_message_cases], for a goal about the result of
    [_handle_message message w]: all of them are closed by computation but
    the one in which the response settles a pending request, which is left
    with the id [s], the future and the value it is completed with. *)
Ltac message_cases message w s future v Hto Hid Hs :=
  let e := fresh "e" in
  let co := fresh "co" in
  let t := fresh "t" in
  destruct (handle_message_cases message w)
    as [(e & -> & -> & _) | [-> | [(s & future & v & Hto & Hid & Hs & ->)
                                  | [(co & _ & ->) | (t & _ & ->)]]]];
  cbn; try done.

(** ** Requests that run into their deadline *)

Section Timeouts.

Implicit Types (w : World) (message : Dict) (msg_id : string) (future : nat).

Lemma complete_pending future v w :
  futures (proc w) !! future = Some Pending →
  complete future v w =
    (Return tt, upd_proc (fun p => set_futures (<[future := v]> (futures p)) p) w).
Proof. intros H. unfold complete. by rewrite H. Qed.

(** What the handling of one inbound message never touches, and what it
    can only shrink. *)
Lemma intake_frame message w :
  uuid4 (proc (intake message w)) = uuid4 (proc w)
  ∧ drawn (proc (intake message w)) = drawn (proc w)
  ∧ arrivals (proc (intake message w)) = arrivals (proc w)
  ∧ waits (proc (intake message w)) = waits (proc w)
  ∧ stdout (proc (intake message w)) = stdout (proc w)
  ∧ self (intake message w) = self w
  ∧ pending_requests (ipc (intake message w)) ⊆ pending_requests (ipc w).
Proof.
  unfold intake.
  message_cases message w s future v Hto Hid Hs.
  unfold complete.
  destruct (futures _ !! future) as [[]|]; cbn;
    repeat (split; [reflexivity|]); apply delete_subseteq.
Qed.

(** The registry stays well formed whatever arrives. *)
Lemma intake_wf message w : registry_wf w → registry_wf (intake message w).
Proof.
  intros [Hpend Hinj]. unfold intake.
  message_cases message w s other v Hto Hid Hs.
  rewrite complete_pending by (cbn; by apply (Hpend s)).
  cbn. split.
  - intros id f. cbn. intros [Hids Hf]%lookup_delete_Some.
    rewrite list_lookup_insert_ne.
    + by apply (Hpend id).
    + intros ->. apply Hids. by apply (Hinj s id f).
  - intros id1 id2 f. cbn.
    intros [_ H1]%lookup_delete_Some [_ H2]%lookup_delete_Some.
    by apply (Hinj id1 id2 f).
Qed.

(** A message that is not the response to [msg_id] leaves the entry of
    [msg_id] as it is. *)
Lemma intake_keeps_entry message msg_id future w :
  pending_requests (ipc w) !! msg_id = Some future →
  is_response_to msg_id message = false →
  pending_requests (ipc (intake message w)) !! msg_id = Some future.
Proof.
  intros Hentry Hnot. unfold intake.
  message_cases message w s other v Hto Hid Hs.
  assert (s ≠ msg_id) as Hne.
  { intros ->. congruence. }
  unfold complete. destruct (futures _ !! other) as [[]|]; cbn; by rewrite lookup_delete_ne.
Qed.

Lemma intake_all_frame (inbound : list Dict) w :
  let w' := fold_left (fun w message => intake message w) inbound w in
  uuid4 (proc w') = uuid4 (proc w)
  ∧ drawn (proc w') = drawn (proc w)
  ∧ arrivals (proc w') = arrivals (proc w)
  ∧ waits (proc w') = waits (proc w)
  ∧ stdout (proc w') = stdout (proc w)
  ∧ self w' = self w
  ∧ pending_requests (ipc w') ⊆ pending_requests (ipc w).
Proof.
  revert w. induction inbound as [|m inbound IH]; intros w; cbn; [done|].
  destruct (IH (intake m w)) as (-> & -> & -> & -> & -> & -> & Hsub).
  destruct (intake_frame m w) as (-> & -> & -> & -> & -> & -> & Hsub').
  repeat (split; [reflexivity|]). by etrans.
Qed.

Lemma intake_all_wf (inbound : list Dict) w :
  registry_wf w → registry_wf (fold_left (fun w message => intake message w) inbound w).
Proof.
  revert w. induction inbound as [|m inbound IH]; intros w Hwf; cbn; [done|].
  by apply IH, intake_wf.
Qed.

Lemma intake_all_keeps_entry (inbound : list Dict) msg_id future w :
  pending_requests (ipc w) !! msg_id = Some future →
  (∀ message, message ∈ inbound → is_response_to msg_id message = false) →
  pending_requests (ipc (fold_left (fun w message => intake message w) inbound w))
    !! msg_id = Some future.
Proof.
  revert w. induction inbound as [|m inbound IH]; intros w Hentry Hnot; cbn; [done|].
  apply IH.
  - apply intake_keeps_entry; [done|]. apply Hnot. by left.
  - intros m' Hm'. apply Hnot. by right.
Qed.

(** Registering a new future under [msg_id] keeps the registry well
    formed. *)
Lemma register_wf msg_id w :
  registry_wf w →
  registry_wf
    (upd_ipc (fun c => set_pending_requests
                         (<[msg_id := length (futures (proc w))]> (pending_requests c)) c)
       (upd_proc (fun p => set_futures (futures p ++ [Pending]) p) w)).
Proof.
  intros [Hpend Hinj]. split; cbn.
  - intros id f. rewrite lookup_insert. case_decide as Hid.
    + intros [= <-]. rewrite lookup_app_r by lia. by rewrite Nat.sub_diag.
    + intros Hf. rewrite lookup_app_l; [by apply (Hpend id)|].
      eapply lookup_lt_Some. by apply (Hpend id).
  - intros id1 id2 f. rewrite !lookup_insert.
    repeat case_decide; subst; try done.
    + intros [= <-] Hf. apply Hpend, lookup_lt_Some in Hf. lia.
    + intros Hf [= <-]. apply Hpend, lookup_lt_Some in Hf. lia.
    + apply Hinj.
Qed.

(** A wait during which no response to [msg_id] arrives ends at the
    deadline. *)
Lemma wait_for_timeout msg_id future timeout w :
  registry_wf w →
  pending_requests (ipc w) !! msg_id = Some future →
  (∀ message, message ∈ arrivals (proc w) (waits (proc w)) →
              is_response_to msg_id message = false) →
  ∃ w',
    wait_for future timeout w =
      (Raise TimeoutError,
       upd_proc (fun p => set_clock (clock p + timeout)%Q
                            (set_futures (<[future := Cancelled]> (futures p)) p)) w')
    ∧ registry_wf w'
    ∧ pending_requests (ipc w') !! msg_id = Some future
    ∧ pending_requests (ipc w') ⊆ pending_requests (ipc w)
    ∧ uuid4 (proc w') = uuid4 (proc w)
    ∧ drawn (proc w') = drawn (proc w)
    ∧ arrivals (proc w') = arrivals (proc w)
    ∧ waits (proc w') = S (waits (proc w))
    ∧ stdout (proc w') = stdout (proc w)
    ∧ self w' = self w.
Proof.
  intros Hwf Hentry Hnot. unfold wait_for.
  set (w0 := upd_proc (fun p => set_waits (S (waits p)) p) w).
  set (inbound := arrivals (proc w) (waits (proc w))) in *.
  pose proof (intake_all_wf inbound w0 Hwf) as Hwf'.
  pose proof (intake_all_keeps_entry inbound msg_id future w0 Hentry Hnot) as Hentry'.
  destruct (intake_all_frame inbound w0) as (Hu & Hd & Ha & Hw & Ho & Hs & Hsub).
  exists (fold_left (fun w message => intake message w) inbound w0).
  split.
  - destruct Hwf' as [Hpend _]. by rewrite (Hpend msg_id future Hentry').
  - split; [exact Hwf'|]. split; [exact Hentry'|]. split; [exact Hsub|].
    by rewrite Hu, Hd, Ha, Hw, Ho, Hs.
Qed.

(** One request that gets no response. *)
Lemma send_request_timeout action data timeout w :
  registry_wf w →
  (∀ message, message ∈ arrivals (proc w) (waits (proc w)) →
              is_response_to (uuid4 (proc w) (drawn (proc w))) message = false) →
  ∃ w',
    send_request action data timeout w =
      (Raise (Exception ("Request timeout: " +:+ action)), w')
    ∧ pending_requests (ipc w') !! uuid4 (proc w) (drawn (proc w)) = None
    ∧ dom (pending_requests (ipc w')) ⊆ dom (pending_requests (ipc w))
    ∧ registry_wf w'
    ∧ uuid4 (proc w') = uuid4 (proc w)
    ∧ drawn (proc w') = S (drawn (proc w))
    ∧ arrivals (proc w') = arrivals (proc w)
    ∧ waits (proc w') = S (waits (proc w))
    ∧ self w' = self w.
Proof.
  intros Hwf Hnot. unfold send_request, _generate_id, create_future.
  cbn -[wait_for].
  set (msg_id := uuid4 (proc w) (drawn (proc w))) in *.
  match goal with |- context [wait_for ?f ?t ?x] => set (w1 := x) end.
  destruct (wait_for_timeout msg_id (length (futures (proc w))) timeout w1)
    as (w2 & -> & [Hpend Hinj] & Hentry & Hsub & Hu & Hd & Ha & Hw & Ho & Hs).
  { apply (register_wf msg_id
             (upd_proc (fun p => set_drawn (S (drawn p)) p) w)), Hwf. }
  { subst w1. cbn. by rewrite lookup_insert_eq. }
  { exact Hnot. }
  cbn. eexists. split; [reflexivity|]. cbn.
  split; [by rewrite lookup_delete_eq|].
  split.
  { rewrite dom_delete_L. apply subseteq_dom in Hsub. subst w1. cbn in Hsub.
    rewrite dom_insert_L in Hsub.
    intros x [Hx Hne]%elem_of_difference. apply Hsub in Hx.
    apply elem_of_union in Hx as [Hx|Hx]; [done|exact Hx]. }
  split.
  { split; cbn.
    - intros id f [Hid Hf]%lookup_delete_Some.
      rewrite list_lookup_insert_ne; [by apply (Hpend id)|].
      intros <-. apply Hid. by apply (Hinj msg_id id (length (futures (proc w)))).
    - intros id1 id2 f [_ H1]%lookup_delete_Some [_ H2]%lookup_delete_Some.
      by apply (Hinj id1 id2 f). }
  by rewrite Hu, Hd, Ha, Hw, Hs.
Qed.

(** Whatever its outcome, a request leaves the registry well formed, so
    that well-formedness holds in every state the client reaches. *)
Lemma send_request_wf action data timeout w :
  registry_wf w → registry_wf (snd (send_request action data timeout w)).
Proof.
  intros Hwf. unfold send_request, _generate_id, create_future.
  cbn -[wait_for].
  set (msg_id := uuid4 (proc w) (drawn (proc w))).
  set (future := length (futures (proc w))).
  match goal with |- context [wait_for ?f ?t ?x] => set (w1 := x) end.
  assert (registry_wf w1) as Hwf1.
  { apply (register_wf msg_id (upd_proc (fun p => set_drawn (S (drawn p)) p) w)), Hwf. }
  assert (∀ id, pending_requests (ipc w1) !! id = Some future → id = msg_id) as Honly.
  { intros id. subst w1. cbn. rewrite lookup_insert. case_decide; [done|].
    intros Hid. destruct Hwf as [Hpend _]. apply Hpend, lookup_lt_Some in Hid.
    subst future. lia. }
  unfold wait_for.
  set (inbound := arrivals (proc w1) (waits (proc w1))).
  set (w0 := upd_proc (fun p => set_waits (S (waits p)) p) w1).
  pose proof (intake_all_wf inbound w0 Hwf1) as Hwf2.
  destruct (intake_all_frame inbound w0) as (_ & _ & _ & _ & _ & _ & Hsub).
  set (w2 := fold_left (fun w message => intake message w) inbound w0) in *.
  assert (∀ w3, pending_requests (ipc w3) = pending_requests (ipc w2) →
                futures (proc w3) = <[future := Cancelled]> (futures (proc w2)) →
                registry_wf (upd_ipc (fun c => set_pending_requests
                                                 (delete msg_id (pending_requests c)) c) w3))
    as Hcancel.
  { intros w3 Hp Hf. destruct Hwf2 as [Hpend Hinj]. split; cbn; rewrite Hp.
    - intros id f [Hid Hlook]%lookup_delete_Some. rewrite Hf.
      rewrite list_lookup_insert_ne; [by apply (Hpend id)|].
      intros <-. apply Hid. symmetry. apply Honly.
      by apply (lookup_weaken _ _ _ _ Hlook).
    - intros id1 id2 f [_ H1]%lookup_delete_Some [_ H2]%lookup_delete_Some.
      by apply (Hinj id1 id2 f). }
  assert (registry_wf (upd_ipc (fun c => set_pending_requests
                                           (delete msg_id (pending_requests c)) c) w2))
    as Hdel.
  { destruct Hwf2 as [Hpend Hinj]. split; cbn.
    - intros id f [_ Hlook]%lookup_delete_Some. by apply (Hpend id).
    - intros id1 id2 f [_ H1]%lookup_delete_Some [_ H2]%lookup_delete_Some.
      by apply (Hinj id1 id2 f). }
  destruct (futures (proc w2) !! future) as [[|v|e|]|]; cbn.
  - by apply Hcancel.
  - exact Hwf2.
  - destruct (String.eqb (exn_class e) "TimeoutError"); cbn; [exact Hdel | exact Hwf2].
  - exact Hwf2.
  - by apply Hcancel.
Qed.

Lemma registry_wf_reachable plugin_info now ids inbound (steps : list IpcStep) :
  registry_wf (fold_left (fun w st => ipc_step st w) steps
                 (new_world plugin_info now ids inbound)).
Proof.
  assert (∀ w, registry_wf w →
               registry_wf (fold_left (fun w st => ipc_step st w) steps w)) as Hall.
  { induction steps as [|st steps IH]; intros w Hwf; cbn; [done|].
    apply IH. destruct st; cbn; [by apply send_request_wf | by apply intake_wf]. }
  apply Hall. split; cbn; intros *; by rewrite lookup_empty.
Qed.

Lemma send_requests_timeout (reqs : list (string * JSON * Q)) w :
  registry_wf w →
  (∀ i message, (i < length reqs)%nat →
     message ∈ arrivals (proc w) (waits (proc w) + i) →
     is_response_to (uuid4 (proc w) (drawn (proc w) + i)) message = false) →
  ∃ w',
    send_requests reqs w =
      (map (fun r => Raise (Exception ("Request timeout: " +:+ r.1.1))) reqs, w')
    ∧ (∀ i, (i < length reqs)%nat →
         pending_requests (ipc w') !! uuid4 (proc w) (drawn (proc w) + i) = None)
    ∧ dom (pending_requests (ipc w')) ⊆ dom (pending_requests (ipc w))
    ∧ registry_wf w'
    ∧ self w' = self w.
Proof.
  revert w. induction reqs as [|[[action data] timeout] reqs IH]; intros w Hwf Hnot.
  { exists w. cbn. repeat split; try done; [intros; lia | apply Hwf | apply Hwf]. }
  destruct (send_request_timeout action data timeout w Hwf)
    as (w1 & Hsend & Hgone & Hdom & Hwf1 & Hu & Hd & Ha & Hw & Hs).
  { intros m Hm. rewrite <- (Nat.add_0_r (drawn (proc w))).
    apply (Hnot 0%nat); [cbn; lia | by rewrite Nat.add_0_r]. }
  destruct (IH w1 Hwf1) as (w2 & Hrest & Hgone2 & Hdom2 & Hwf2 & Hs2).
  { intros i m Hi. rewrite Hu, Hd, Ha, Hw.
    replace (S (waits (proc w)) + i)%nat with (waits (proc w) + S i)%nat by lia.
    replace (S (drawn (proc w)) + i)%nat with (drawn (proc w) + S i)%nat by lia.
    apply Hnot. cbn. lia. }
  exists w2. cbn [send_requests]. rewrite Hsend, Hrest. cbn.
  split; [reflexivity|]. split; [|split; [|split]].
  - intros [|i] Hi.
    + rewrite Nat.add_0_r. apply not_elem_of_dom. intros Hin.
      apply Hdom2 in Hin. by apply not_elem_of_dom in Hgone.
    + replace (drawn (proc w) + S i)%nat with (S (drawn (proc w)) + i)%nat by lia.
      rewrite <- Hu, <- Hd. apply Hgone2. cbn in Hi. lia.
  - intros x Hx. by apply Hdom, Hdom2.
  - exact Hwf2.
  - by rewrite Hs2.
Qed.

(** C5.  Requests that each get no response before their deadline: every
    call fails with the exception whose message is ["Request timeout: "]
    followed by the action, and afterwards the registry holds no entry
    for any of their ids and no entry that it did not hold before. *)
Theorem timed_out_requests_leave_no_entry (reqs : list (string * JSON * Q)) (w : World) :
  registry_wf w →
  (∀ i message, (i < length reqs)%nat →
     message ∈ arrivals (proc w) (waits (proc w) + i) →
     is_response_to (uuid4 (proc w) (drawn (proc w) + i)) message = false) →
  fst (send_requests reqs w) =
    map (fun r => Raise (Exception ("Request timeout: " +:+ r.1.1))) reqs
  ∧ (∀ i, (i < length reqs)%nat →
       pending_requests (ipc (snd (send_requests reqs w)))
         !! uuid4 (proc w) (drawn (proc w) + i) = None)
  ∧ dom (pending_requests (ipc (snd (send_requests reqs w))))
      ⊆ dom (pending_requests (ipc w)).
Proof.
  intros Hwf Hnot.
  destruct (send_requests_timeout reqs w Hwf Hnot) as (w' & -> & Hgone & Hdom & _).
  by repeat split.
Qed.

Lemma new_world_wf plugin_info now ids inbound :
  registry_wf (new_world plugin_info now ids inbound).
Proof. apply (registry_wf_reachable plugin_info now ids inbound []). Qed.

(** A request that the host answers returns the data of the response and
    leaves nothing in the registry either. *)
Example answered_request_returns_data :
  fst (send_request "storage.set" JNull 30 answering_world) = Return success_true
  ∧ pending_requests (ipc (snd (send_request "storage.set" JNull 30 answering_world))) = ∅
  ∧ stdout (proc (snd (send_request "storage.set" JNull 30 answering_world))) =
      [[("id", JStr "req-0"); ("type", JStr "request"); ("action", JStr "storage.set");
        ("data", JObj []); ("timestamp", JFloat 1700000000)]].
Proof. vm_compute. repeat split; reflexivity. Qed.

(** Two requests in a process whose host answers neither of them. *)
Lemma timed_out_requests_leave_no_entry_witness :
  fst (send_requests two_requests busy_world) =
    [Raise (Exception "Request timeout: callApi");
     Raise (Exception "Request timeout: storage.get")]
  ∧ (∀ i, (i < 2)%nat →
       pending_requests (ipc (snd (send_requests two_requests busy_world)))
         !! demo_ids i = None)
  ∧ dom (pending_requests (ipc (snd (send_requests two_requests busy_world))))
      ⊆ dom (pending_requests (ipc busy_world)).
Proof.
  apply (timed_out_requests_leave_no_entry two_requests busy_world).
  - apply new_world_wf.
  - intros i message Hi Hin. destruct i as [|[|i]]; cbn in Hi; [| |lia].
    + cbn in Hin.
      apply elem_of_cons in Hin as [->|Hin]; [reflexivity|].
      apply elem_of_cons in Hin as [->|Hin]; [reflexivity|].
      by apply elem_of_nil in Hin.
    + cbn in Hin. by apply elem_of_nil in Hin.
Defined.

End Timeouts.

(** ** The instrumentation wrappers *)

Section Wrappers.

Implicit Types (w : World) (i : Invocation).

(** *** The IPC client never touches the plugin object *)

Lemma send_request_self action data timeout w :
  self (snd (send_request action data timeout w)) = self w.
Proof.
  unfold send_request, _generate_id, create_future, wait_for. cbn.
  match goal with
  | |- context [fold_left ?f ?l ?x] =>
      destruct (intake_all_frame l x) as (_ & _ & _ & _ & _ & Hs & _);
      cbn in Hs; destruct (futures (proc (fold_left f l x)) !! _) as [[]|]
  end; cbn; try done.
  by destruct (String.eqb _ _).
Qed.

Lemma notify_failure_self command error event w :
  self (notify_failure command error event w) = self w.
Proof.
  unfold notify_failure.
  destruct (py_get _ _); [|done].
  destruct (py_get_default _ _ _); [|done].
  apply send_request_self.
Qed.

(** *** The concurrency counter *)

Lemma conc_record_error ty src e w :
  _concurrent_operations (self (_PluginBase__record_error_internal ty src e w)) =
  _concurrent_operations (self w).
Proof. unfold _PluginBase__record_error_internal. cbn. by case_decide. Qed.

Lemma conc_record_performance pt name d ok w :
  _concurrent_operations (self (_PluginBase__record_performance_internal pt name d ok w)) =
  _concurrent_operations (self w).
Proof. unfold _PluginBase__record_performance_internal. by destruct (Qle_bool 0 d). Qed.

Lemma conc_enter_wrapper count w :
  _concurrent_operations (self (enter_wrapper count w)) = _concurrent_operations (self w) + 1.
Proof. unfold enter_wrapper. cbn. by case_decide. Qed.

Lemma conc_leave_wrapper pt name start ok w :
  _concurrent_operations (self (leave_wrapper pt name start ok w)) =
  _concurrent_operations (self w) - 1.
Proof. unfold leave_wrapper. by rewrite conc_record_performance. Qed.

(** The counter when the handler is called: one more for a command or an
    event, the same for a task. *)
Lemma conc_state_at_call i w :
  _concurrent_operations (self (state_at_call i w)) =
    _concurrent_operations (self w)
    + match i with InvokeTask _ _ => 0 | _ => 1 end.
Proof. destruct i; cbn; rewrite ?conc_enter_wrapper; lia. Qed.

Lemma conc_state_at_call_counted i w :
  _concurrent_operations (self (state_at_call i w)) =
    _concurrent_operations (self w) + counted i.
Proof. rewrite conc_state_at_call. destruct i; cbn; lia. Qed.

(** The [finally] block. *)
Lemma invoke_counter_end i w :
  _concurrent_operations (self (snd (invoke i w))) =
    _concurrent_operations
      (self (state_after_except i (fst (underlying i (state_at_call i w)))
               (snd (underlying i (state_at_call i w))))) - counted i.
Proof.
  destruct (underlying i (state_at_call i w)) as [o w2] eqn:Hrun. cbn [fst snd].
  destruct i; unfold underlying, state_at_call in *; cbv zeta in *;
    unfold invoke, command_wrapped_handler, event_wrapped_handler,
      task_wrapped_handler, state_after_except, counted; cbv zeta; rewrite Hrun.
  - destruct o as [r|e]; [|destruct (exn_is_Exception e)]; cbn [snd];
      by rewrite conc_leave_wrapper.
  - destruct o as [r|e]; [|destruct (exn_is_Exception e)]; cbn [snd];
      by rewrite conc_leave_wrapper.
  - destruct o as [r|e]; [|destruct (exn_is_Exception e)]; cbn [snd]; lia.
Qed.

(** An [except] block that does not wait. *)
Lemma conc_except_without_notice i o w :
  awaits_notice i o = false →
  _concurrent_operations (self (state_after_except i o w)) = _concurrent_operations (self w).
Proof.
  intros Hno. destruct o as [r|e]; [done|]. unfold state_after_except.
  destruct (exn_is_Exception e) eqn:He; [|done].
  destruct i as [command handler event args| |].
  - unfold notify_failure.
    destruct event; cbn in Hno; try congruence; cbn [py_get]; apply conc_record_error.
  - apply conc_record_error.
  - unfold _record_error. apply conc_record_error.
Qed.




(** In a run of invocations made one after the other, none of which
    awaits a failure notice and whose handlers leave the counter alone,
    the counter is never negative. *)
Lemma counter_never_negative (calls : list Invocation) w :
  0 ≤ _concurrent_operations (self w) →
  (∀ i w0, i ∈ calls →
     _concurrent_operations (self (snd (underlying i w0))) =
     _concurrent_operations (self w0)) →
  (∀ i w0, i ∈ calls → awaits_notice i (fst (underlying i w0)) = false) →
  Forall (fun s => 0 ≤ _concurrent_operations (self s)) (run_states calls w).
Proof.
  revert w. induction calls as [|i calls IH]; intros w Hpos Hframe Hno; cbn.
  { by repeat constructor. }
  assert (i ∈ i :: calls) as Hi by (by left).
  pose proof (Hframe i (state_at_call i w) Hi) as Hcall.
  pose proof (Hno i (state_at_call i w) Hi) as Hnotice.
  pose proof (invoke_counter_end i w) as Hend.
  pose proof (conc_state_at_call_counted i w) as Hat.
  assert (0 ≤ counted i) as Hc by (destruct i; cbn; lia).
  apply Forall_app. split.
  - unfold invoke_states.
    destruct (underlying i (state_at_call i w)) as [o w2] eqn:Hrun. cbn [fst snd] in *.
    pose proof (conc_except_without_notice i o w2 Hnotice) as Hexc.
    repeat constructor; lia.
  - apply IH.
    + destruct (underlying i (state_at_call i w)) as [o w2] eqn:Hrun. cbn [fst snd] in *.
      pose proof (conc_except_without_notice i o w2 Hnotice) as Hexc. lia.
    + intros j w0 Hj. apply Hframe. by right.
    + intros j w0 Hj. apply Hno. by right.
Qed.

(** *** The counters *)

Lemma statistics_record_error ty src e w :
  statistics (self (_PluginBase__record_error_internal ty src e w)) =
  count_error (statistics (self w)).
Proof. unfold _PluginBase__record_error_internal. cbn. by case_decide. Qed.

Lemma statistics_record_performance pt name d ok w :
  statistics (self (_PluginBase__record_performance_internal pt name d ok w)) =
  statistics (self w).
Proof. unfold _PluginBase__record_performance_internal. by destruct (Qle_bool 0 d). Qed.

Lemma statistics_enter_wrapper count w :
  statistics (self (enter_wrapper count w)) = count (statistics (self w)).
Proof. unfold enter_wrapper. cbn. by case_decide. Qed.

Lemma statistics_leave_wrapper pt name start ok w :
  statistics (self (leave_wrapper pt name start ok w)) = statistics (self w).
Proof. unfold leave_wrapper. by rewrite statistics_record_performance. Qed.

Lemma errors_record_performance pt name d ok w :
  errors (self (_PluginBase__record_performance_internal pt name d ok w)) = errors (self w).
Proof. unfold _PluginBase__record_performance_internal. by destruct (Qle_bool 0 d). Qed.

(** What the wrapper of a command does with the outcome of the handler. *)
Lemma command_wrapped_handler_outcome command handler event args w :
  fst (command_wrapped_handler command handler event args w) =
    match fst (handler event args (enter_wrapper count_command w)) with
    | Return _ => Return tt
    | Raise error => if exn_is_Exception error then Return tt else Raise error
    end.
Proof.
  unfold command_wrapped_handler. cbv zeta.
  destruct (handler event args (enter_wrapper count_command w)) as [[r|e] w2]; cbn; [done|].
  by destruct (exn_is_Exception e).
Qed.

Lemma command_wrapped_handler_count command handler event args w :
  command_executions (statistics (self (snd (command_wrapped_handler command handler event args w)))) =
  command_executions
    (statistics (self (snd (handler event args (enter_wrapper count_command w))))).
Proof.
  unfold command_wrapped_handler. cbv zeta.
  destruct (handler event args (enter_wrapper count_command w)) as [[r|e] w2]; cbn [snd].
  - by rewrite statistics_leave_wrapper.
  - destruct (exn_is_Exception e); cbn [snd]; rewrite statistics_leave_wrapper; [|done].
    by rewrite notify_failure_self, statistics_record_error.
Qed.

(** C1, as the code has it.  A command registered through
    [register_command], whose handler leaves the counter alone and raises
    nothing outside [Exception]: one [dispatch_command] returns normally
    and [command_executions] has grown by 2, once in [dispatch_command]
    and once in the wrapper. *)
Theorem dispatch_command_counts_twice
    (T : Tables) (command : string) (handler : JSON → JSON → M JSON)
    (event args : JSON) (w : World) :
  _command_handlers T !! command = Some (command_wrapped_handler command handler) →
  (∀ ev a w0, command_executions (statistics (self (snd (handler ev a w0)))) =
              command_executions (statistics (self w0))) →
  (∀ ev a w0 e, fst (handler ev a w0) = Raise e → exn_is_Exception e = true) →
  fst (dispatch_command T (JStr command) event args w) = Return tt
  ∧ command_executions
      (statistics (self (snd (dispatch_command T (JStr command) event args w)))) =
    command_executions (statistics (self w)) + 2.
Proof.
  intros Hreg Hframe Hexc. unfold dispatch_command. cbv zeta. cbn [py_lookup].
  rewrite Hreg.
  match goal with
  | |- context [command_wrapped_handler command handler ?ev ?a ?x] =>
      pose proof (command_wrapped_handler_outcome command handler ev a x) as Hout;
      pose proof (command_wrapped_handler_count command handler ev a x) as Hcount;
      pose proof (Hframe ev a (enter_wrapper count_command x)) as Hh;
      pose proof (Hexc ev a (enter_wrapper count_command x)) as He;
      destruct (command_wrapped_handler command handler ev a x) as [o w'] eqn:Hrun
  end.
  cbn [fst snd] in Hout, Hcount.
  rewrite Hh, statistics_enter_wrapper in Hcount. cbn in Hcount.
  destruct (fst (handler event (or_empty_list args) _)) as [r|e] eqn:Hfst.
  - subst o. cbn. split; [done | lia].
  - rewrite (He e eq_refl) in Hout. subst o. cbn. split; [done | lia].
Qed.

(** [pyhello] dispatched once on the example plugin. *)
Lemma dispatch_command_counts_twice_witness :
  fst (dispatch_command (tables demo_registered.1) (JStr "pyhello") demo_event (JArr [])
         demo_registered.2) = Return tt
  ∧ command_executions
      (statistics (self (snd (dispatch_command (tables demo_registered.1) (JStr "pyhello")
                                demo_event (JArr []) demo_registered.2)))) =
    command_executions (statistics (self demo_registered.2)) + 2.
Proof.
  apply (dispatch_command_counts_twice (tables demo_registered.1) "pyhello" handle_hello).
  - reflexivity.
  - intros ev a w0. reflexivity.
  - intros ev a w0 e. discriminate.
Defined.

Example pyhello_counted_twice :
  command_executions (statistics (self demo_registered.2)) = 0
  ∧ command_executions
      (statistics (self (snd (dispatch_command (tables demo_registered.1) (JStr "pyhello")
                                demo_event (JArr []) demo_registered.2)))) = 2.
Proof. split; vm_compute; reflexivity. Qed.

(** The sibling dispatchers count once: one event handler, one event. *)
Example message_event_counted_once :
  let '(P, w) := register_event "message" (fun event w => (Return JNull, w))
                   demo_plugin demo_world in
  events_handled
    (statistics (self (snd (dispatch_event (tables P) (JStr "message") demo_event w)))) = 1.
Proof. vm_compute. reflexivity. Qed.

(** *** Failures *)

(** C2, as the code has it.  When the handler of a command raises an
    exception, the wrapper records the error and returns normally: the
    exception does not reach the caller of the wrapper. *)
Theorem command_wrapper_swallows_exception
    (command : string) (handler : JSON → JSON → M JSON) (event args : JSON)
    (w w' : World) (error : PyExn) :
  handler event args (enter_wrapper count_command w) = (Raise error, w') →
  exn_is_Exception error = true →
  fst (command_wrapped_handler command handler event args w) = Return tt
  ∧ errors_occurred
      (statistics (self (snd (command_wrapped_handler command handler event args w)))) =
    errors_occurred (statistics (self w')) + 1.
Proof.
  intros Hrun Hexc. unfold command_wrapped_handler. cbv zeta.
  rewrite Hrun, Hexc. cbn [fst snd]. split; [done|].
  by rewrite statistics_leave_wrapper, notify_failure_self, statistics_record_error.
Qed.

Lemma command_wrapper_swallows_exception_witness :
  fst (command_wrapped_handler "pybroken" handle_broken demo_event (JArr []) demo_world) =
    Return tt
  ∧ errors_occurred
      (statistics (self (snd (command_wrapped_handler "pybroken" handle_broken demo_event
                                (JArr []) demo_world)))) = 0 + 1.
Proof.
  apply (command_wrapper_swallows_exception "pybroken" handle_broken demo_event (JArr [])
           demo_world
           (snd (handle_broken demo_event (JArr []) (enter_wrapper count_command demo_world)))
           {| exn_class := "ValueError"; exn_is_Exception := true;
              exn_message := "bad argument"; exn_traceback := "Traceback ..." |}).
  - reflexivity.
  - reflexivity.
Defined.

(** The wrapper of an event handler does raise the exception again,
    after recording it. *)
Lemma event_wrapper_reraises
    (event_type : string) (handler : JSON → M JSON) (event : JSON)
    (w w' : World) (error : PyExn) :
  handler event (enter_wrapper count_event w) = (Raise error, w') →
  exn_is_Exception error = true →
  fst (event_wrapped_handler event_type handler event w) = Raise error
  ∧ errors_occurred
      (statistics (self (snd (event_wrapped_handler event_type handler event w)))) =
    errors_occurred (statistics (self w')) + 1.
Proof.
  intros Hrun Hexc. unfold event_wrapped_handler. cbv zeta.
  rewrite Hrun, Hexc. cbn [fst snd]. split; [done|].
  by rewrite statistics_leave_wrapper, statistics_record_error.
Qed.

(** So does the wrapper of a task; [dispatch_task] is where the failure
    of a task stops. *)
Lemma task_wrapper_reraises (name : string) (handler : M JSON) (w w' : World) (error : PyExn) :
  handler (state_at_call (InvokeTask name handler) w) = (Raise error, w') →
  fst (task_wrapped_handler name handler w) = Raise error.
Proof.
  intros Hrun. unfold task_wrapped_handler, state_at_call in *. cbv zeta in *.
  rewrite Hrun. by destruct (exn_is_Exception error).
Qed.

(** The failed command through [dispatch_command]: the dispatcher returns
    normally and the host is told that the command succeeded. *)
Example broken_command_reported_as_success :
  fst (dispatch_command_handler (JObj [("command", JStr "pybroken"); ("event", demo_event)])
         (tables demo_registered.1) demo_registered.2) = Return success_true.
Proof. vm_compute. reflexivity. Qed.

(** *** What each wrapper tracks *)

Lemma max_record_error ty src e w :
  _max_concurrent_operations (self (_PluginBase__record_error_internal ty src e w)) =
  _max_concurrent_operations (self w).
Proof. unfold _PluginBase__record_error_internal. cbn. by case_decide. Qed.

Lemma performance_record_error ty src e w :
  performance (self (_PluginBase__record_error_internal ty src e w)) = performance (self w).
Proof. unfold _PluginBase__record_error_internal. cbn. by case_decide. Qed.

(** The wrappers of commands and events: the counter is one higher while
    the handler runs, the high-water mark follows, and at the end a
    sample is appended to the window of the name, unless the clock went
    backwards during the call. *)
Lemma command_wrapper_tracks command handler event args w :
  let w1 := enter_wrapper count_command w in
  let i := InvokeCommand command handler event args in
  _concurrent_operations (self w1) = _concurrent_operations (self w) + 1
  ∧ _max_concurrent_operations (self w1) =
      Z.max (_max_concurrent_operations (self w)) (_concurrent_operations (self w) + 1)
  ∧ ∀ o w2, handler event args w1 = (o, w2) →
      let w3 := state_after_except i o w2 in
      let d := ((clock (proc w3) - clock (proc w1)) * 1000)%Q in
      Qle_bool 0 d = true →
      ∃ sample,
        sample_duration sample = d
        ∧ window CommandPerf command (snd (command_wrapped_handler command handler event args w)) =
            let samples := window CommandPerf command w3 ++ [sample] in
            if decide (20 < length samples)%nat then tail samples else samples.
Proof.
  intros w1 i. split; [apply conc_enter_wrapper|]. split.
  { unfold w1, enter_wrapper. cbn. case_decide; cbn; lia. }
  intros o w2 Hrun w3 d Hd. subst w3 d.
  unfold command_wrapped_handler. cbv zeta. fold w1. rewrite Hrun.
  destruct o as [r|e]; [|destruct (exn_is_Exception e) eqn:He];
    cbn [snd state_after_except i] in *; try rewrite He in *;
    unfold leave_wrapper; cbv zeta;
    (rewrite (window_record_performance "command") by exact Hd);
    (eexists; split; last first; [reflexivity | reflexivity]).
Qed.

Lemma event_wrapper_tracks event_type handler event w :
  let w1 := enter_wrapper count_event w in
  let i := InvokeEvent event_type handler event in
  _concurrent_operations (self w1) = _concurrent_operations (self w) + 1
  ∧ _max_concurrent_operations (self w1) =
      Z.max (_max_concurrent_operations (self w)) (_concurrent_operations (self w) + 1)
  ∧ ∀ o w2, handler event w1 = (o, w2) →
      let w3 := state_after_except i o w2 in
      let d := ((clock (proc w3) - clock (proc w1)) * 1000)%Q in
      Qle_bool 0 d = true →
      ∃ sample,
        sample_duration sample = d
        ∧ window EventPerf event_type (snd (event_wrapped_handler event_type handler event w)) =
            let samples := window EventPerf event_type w3 ++ [sample] in
            if decide (20 < length samples)%nat then tail samples else samples.
Proof.
  intros w1 i. split; [apply conc_enter_wrapper|]. split.
  { unfold w1, enter_wrapper. cbn. case_decide; cbn; lia. }
  intros o w2 Hrun w3 d Hd. subst w3 d.
  unfold event_wrapped_handler. cbv zeta. fold w1. rewrite Hrun.
  destruct o as [r|e]; [|destruct (exn_is_Exception e) eqn:He];
    cbn [snd state_after_except i] in *; try rewrite He in *;
    unfold leave_wrapper; cbv zeta;
    (rewrite (window_record_performance "event") by exact Hd);
    (eexists; split; last first; [reflexivity | reflexivity]).
Qed.

(** C3, as the code has it, for tasks.  The wrapper installed by
    [schedule] counts the run and records a failure, and nothing else:
    when the task's own handler leaves them alone, the concurrency
    counter is the same in every state of the invocation, the high-water
    mark is unchanged and no sample is added to any performance map. *)
Theorem task_wrapper_tracks_no_performance (name : string) (handler : M JSON) (w : World) :
  (∀ w0, _concurrent_operations (self (snd (handler w0))) = _concurrent_operations (self w0)
         ∧ _max_concurrent_operations (self (snd (handler w0))) =
             _max_concurrent_operations (self w0)
         ∧ performance (self (snd (handler w0))) = performance (self w0)) →
  Forall (fun s => _concurrent_operations (self s) = _concurrent_operations (self w))
    (invoke_states (InvokeTask name handler) w)
  ∧ _max_concurrent_operations (self (snd (task_wrapped_handler name handler w))) =
      _max_concurrent_operations (self w)
  ∧ performance (self (snd (task_wrapped_handler name handler w))) = performance (self w)
  ∧ tasks_executed (statistics (self (state_at_call (InvokeTask name handler) w))) =
      tasks_executed (statistics (self w)) + 1.
Proof.
  intros Hframe. unfold invoke_states, invoke, underlying.
  pose proof (Hframe (state_at_call (InvokeTask name handler) w)) as (Hc & Hm & Hp).
  unfold task_wrapped_handler, state_at_call in *. cbv zeta in *.
  match goal with
  | |- context [handler ?x] => destruct (handler x) as [o w2] eqn:Hrun
  end.
  cbn [snd] in Hc, Hm, Hp. cbn in Hc, Hm, Hp.
  assert (∀ e, _concurrent_operations (self (_record_error "task" name e w2)) =
               _concurrent_operations (self w)) as Hce.
  { intros e. unfold _record_error. by rewrite conc_record_error. }
  split; [|split; [|split]].
  - repeat constructor; try done.
    + destruct o as [r|e]; cbn; [done|]. destruct (exn_is_Exception e); [apply Hce|done].
    + destruct o as [r|e]; cbn; [done|]. destruct (exn_is_Exception e); [apply Hce|done].
  - destruct o as [r|e]; [|destruct (exn_is_Exception e)]; cbn [snd]; try done.
    unfold _record_error. by rewrite max_record_error.
  - destruct o as [r|e]; [|destruct (exn_is_Exception e)]; cbn [snd]; try done.
    unfold _record_error. by rewrite performance_record_error.
  - reflexivity.
Qed.

(** The task of the example plugin, run once. *)
Lemma task_wrapper_tracks_no_performance_witness :
  Forall (fun s => _concurrent_operations (self s) = 0)
    (invoke_states (InvokeTask "hourly_stats" hourly_task) demo_world)
  ∧ _max_concurrent_operations
      (self (snd (task_wrapped_handler "hourly_stats" hourly_task demo_world))) = 0
  ∧ performance (self (snd (task_wrapped_handler "hourly_stats" hourly_task demo_world))) =
      performance (self demo_world)
  ∧ tasks_executed
      (statistics (self (state_at_call (InvokeTask "hourly_stats" hourly_task) demo_world))) =
      0 + 1.
Proof.
  apply (task_wrapper_tracks_no_performance "hourly_stats" hourly_task demo_world).
  intros w0. repeat split; reflexivity.
Defined.

(** The same through [schedule] and [dispatch_task]: the run is counted
    and the task map stays empty, while a command that ran once has its
    record. *)
Example scheduled_task_leaves_no_record :
  let '(o, P, w) := demo_scheduled in
  let w' := snd (dispatch_task (tables P) (JStr "hourly_stats") w) in
  o = Return tt
  ∧ tasks_executed (statistics (self w')) = 1
  ∧ task_performance (performance (self w')) = ∅
  ∧ _max_concurrent_operations (self w') = 0.
Proof. vm_compute. repeat split; reflexivity. Qed.

Example dispatched_command_has_record :
  let w' := snd (dispatch_command (tables demo_registered.1) (JStr "pyhello") demo_event
                   (JArr []) demo_registered.2) in
  (total_executions <$> command_performance (performance (self w')) !! "pyhello") = Some 1
  ∧ _max_concurrent_operations (self w') = 1.
Proof. vm_compute. repeat split; reflexivity. Qed.

End Wrappers.

(** ** The diagnostics snapshot *)

Section Snapshot.

Implicit Types (T : Tables) (s : PluginBase).

(** C9, as the code has it.  In the dict returned by
    [get_detailed_info] the status, the command and event names, the task
    entries, the last errors, the average execution time and the
    concurrency numbers are values built at the call: whatever the plugin
    does later, they read as they did.  The [basic] entry, [statistics]
    and the three performance maps are the plugin's own objects: read
    later, they show the state of that later moment. *)
Theorem detailed_info_copies_and_aliases T s s' :
  let d := get_detailed_info T s in
  status_is_enabled (read_info d s') = is_enabled s
  ∧ status_last_activity (read_info d s') = last_activity s
  ∧ commands (read_info d s') = commands (read_info d s)
  ∧ events (read_info d s') = events (read_info d s)
  ∧ tasks_info (read_info d s') = (map_to_list (_scheduled_tasks s)).*2
  ∧ recent_errors (read_info d s') = last_n 10 (errors s)
  ∧ avgExecutionTime (read_info d s') = _calculate_avg_execution_time s
  ∧ concurrentRequests (read_info d s') = _concurrent_operations s
  ∧ maxConcurrentRequests (read_info d s') = _max_concurrent_operations s
  ∧ warnings (read_info d s') = []
  ∧ isHealthy (read_info d s') = true
  ∧ basic (read_info d s') = InfoVal (info s')
  ∧ statistics_info (read_info d s') = StatisticsVal (statistics s')
  ∧ commandPerformance (read_info d s') = PerformanceVal (command_performance (performance s'))
  ∧ eventPerformance (read_info d s') = PerformanceVal (event_performance (performance s'))
  ∧ taskPerformance (read_info d s') = PerformanceVal (task_performance (performance s')).
Proof. by repeat split. Qed.

(** C9 as it is stated fails: the snapshot taken before [pyhello] is
    dispatched does not read the same afterwards, its [statistics] entry
    has followed the counter. *)
Lemma detailed_info_follows_statistics :
  let '(P, w) := demo_registered in
  let d := get_detailed_info (tables P) (self w) in
  let w' := snd (dispatch_command (tables P) (JStr "pyhello") demo_event (JArr []) w) in
  read_info d (self w') ≠ read_info d (self w)
  ∧ statistics_info (read_info d (self w)) =
      StatisticsVal {| command_executions := 0; events_handled := 0;
                       tasks_executed := 0; errors_occurred := 0 |}
  ∧ statistics_info (read_info d (self w')) =
      StatisticsVal {| command_executions := 2; events_handled := 0;
                       tasks_executed := 0; errors_occurred := 0 |}.
Proof.
  destruct demo_registered as [P w] eqn:Hdemo.
  assert (P = demo_registered.1 ∧ w = demo_registered.2) as [-> ->] by (by rewrite Hdemo).
  cbv zeta.
  assert (statistics_info
            (read_info (get_detailed_info (tables demo_registered.1) (self demo_registered.2))
               (self (snd (dispatch_command (tables demo_registered.1) (JStr "pyhello")
                             demo_event (JArr []) demo_registered.2)))) =
          StatisticsVal {| command_executions := 2; events_handled := 0;
                           tasks_executed := 0; errors_occurred := 0 |}) as Hafter
    by (vm_compute; reflexivity).
  split; [|split; [reflexivity | exact Hafter]].
  intros Heq. apply (f_equal statistics_info) in Heq.
  rewrite Hafter in Heq. discriminate.
Qed.

End Snapshot.

(** ** Responses and the requests they answer *)

Section Responses.

Implicit Types (w : World) (message : Dict) (msg_id : string) (future : nat).

(** The response to a registered request: its entry is removed and its
    future completed. *)
Lemma handle_message_response message msg_id future w :
  is_response_to msg_id message = true →
  msg_id ≠ "" →
  pending_requests (ipc w) !! msg_id = Some future →
  _handle_message message w =
    complete future (settled_by message)
      (upd_ipc (fun c => set_pending_requests (delete msg_id (pending_requests c)) c)
         (_log_info ("处理消息: type=response, id=" +:+ msg_id) w)).
Proof.
  intros Hto Hne Hentry. unfold is_response_to in Hto.
  apply andb_true_iff in Hto as [Hty Hid].
  destruct (dict_get "type" message) as [| | | |ty| |] eqn:Hty'; try discriminate.
  destruct (dict_get "id" message) as [| | | |s| |] eqn:Hid'; try discriminate.
  cbn in Hty, Hid. apply String.eqb_eq in Hty as ->. apply String.eqb_eq in Hid as ->.
  unfold _handle_message. rewrite Hty', Hid'. cbn [py_str is_str truthy].
  rewrite String.eqb_refl.
  destruct (String.eqb msg_id "") eqn:Hempty; [by apply String.eqb_eq in Hempty|].
  cbn [negb py_lookup]. cbn -[complete]. rewrite Hentry.
  unfold settled_by, set_exception, set_result.
  by destruct (truthy (dict_get "error" message)).
Qed.

(** The futures after the handling of one message: the same, or one
    pending future of the registry completed by a response. *)
Lemma intake_futures message w :
  futures (proc (intake message w)) = futures (proc w)
  ∨ ∃ msg_id future v,
      pending_requests (ipc w) !! msg_id = Some future
      ∧ futures (proc w) !! future = Some Pending
      ∧ ((∃ data, v = Result data) ∨ (∃ text, v = Failed (Exception text)))
      ∧ futures (proc (intake message w)) = <[future := v]> (futures (proc w)).
Proof.
  unfold intake, _handle_message.
  destruct (is_str "response" (dict_get "type" message)).
  - destruct (truthy (dict_get "id" message)); [|by left].
    destruct (dict_get "id" message) as [| | | |s|items|fields];
      cbn [py_lookup]; try (by left).
    cbn -[set_exception set_result].
    destruct (pending_requests (ipc w) !! s) as [future|] eqn:Hs; [|by left].
    unfold set_exception, set_result, complete. cbn.
    destruct (futures (proc w) !! future) as [[]|] eqn:Hf;
      destruct (truthy (dict_get "error" message)); cbn; try (by left).
    + right. exists s, future, (Failed (Exception (py_str (dict_get "error" message)))).
      repeat split; try done. right. by eexists.
    + right. exists s, future, (Result (dict_get "data" message)).
      repeat split; try done. left. by eexists.
  - destruct (is_str "request" (dict_get "type" message)); [by left|].
    destruct (is_str "event" (dict_get "type" message)); by left.
Qed.

(** A future that no entry of the registry holds is out of reach of the
    inbound messages. *)
Lemma intake_keeps_future message future w :
  (∀ msg_id, pending_requests (ipc w) !! msg_id ≠ Some future) →
  futures (proc (intake message w)) !! future = futures (proc w) !! future.
Proof.
  intros Hfree. destruct (intake_futures message w) as [-> | (s & f & v & Hs & _ & _ & ->)].
  - done.
  - apply list_lookup_insert_ne. intros ->. by apply (Hfree s).
Qed.

Lemma intake_all_keeps_future (inbound : list Dict) future w :
  (∀ msg_id, pending_requests (ipc w) !! msg_id ≠ Some future) →
  futures (proc (fold_left (fun w message => intake message w) inbound w)) !! future =
  futures (proc w) !! future.
Proof.
  revert w. induction inbound as [|m inbound IH]; intros w Hfree; cbn; [done|].
  rewrite IH.
  - by apply intake_keeps_future.
  - intros s Hs. apply (Hfree s).
    destruct (intake_frame m w) as (_ & _ & _ & _ & _ & _ & Hsub).
    by apply (lookup_weaken _ _ _ _ Hs).
Qed.

(** The state after the response to a pending request. *)
Lemma intake_settles message msg_id future w :
  futures (proc w) !! future = Some Pending →
  is_response_to msg_id message = true →
  msg_id ≠ "" →
  pending_requests (ipc w) !! msg_id = Some future →
  pending_requests (ipc (intake message w)) = delete msg_id (pending_requests (ipc w))
  ∧ futures (proc (intake message w)) = <[future := settled_by message]> (futures (proc w))
  ∧ stdout (proc (intake message w)) = stdout (proc w).
Proof.
  intros Hpend Hto Hne Hentry.
  unfold intake. rewrite (handle_message_response message msg_id future w) by done.
  by rewrite complete_pending.
Qed.



(** The request whose response arrives during the wait. *)
Lemma send_request_first_response action data timeout w (pre post : list Dict) message :
  registry_wf w →
  uuid4 (proc w) (drawn (proc w)) ≠ "" →
  arrivals (proc w) (waits (proc w)) = pre ++ message :: post →
  (∀ m, m ∈ pre → is_response_to (uuid4 (proc w) (drawn (proc w))) m = false) →
  is_response_to (uuid4 (proc w) (drawn (proc w))) message = true →
  ∃ w',
    send_request action data timeout w = (outcome_of_response message, w')
    ∧ pending_requests (ipc w') !! uuid4 (proc w) (drawn (proc w)) = None
    ∧ pending_requests (ipc w') ⊆ pending_requests (ipc w)
    ∧ registry_wf w'.
Proof.
  intros Hwf Hne Harr Hpre Hto.
  unfold send_request, _generate_id, create_future. cbn -[wait_for].
  set (msg_id := uuid4 (proc w) (drawn (proc w))) in *.
  set (future := length (futures (proc w))).
  match goal with |- context [wait_for ?f ?t ?x] => set (w1 := x) end.
  assert (registry_wf w1) as Hwf1.
  { apply (register_wf msg_id (upd_proc (fun p => set_drawn (S (drawn p)) p) w)), Hwf. }
  assert (pending_requests (ipc w1) !! msg_id = Some future) as Hentry1.
  { subst w1. cbn. by rewrite lookup_insert_eq. }
  unfold wait_for.
  change (arrivals (proc w1) (waits (proc w1))) with (arrivals (proc w) (waits (proc w))).
  rewrite Harr, fold_left_app. cbn [fold_left].
  set (w0 := upd_proc (fun p => set_waits (S (waits p)) p) w1).
  set (a := fold_left (fun w message => intake message w) pre w0).
  pose proof (intake_all_wf pre w0 Hwf1) as Hwfa.
  pose proof (intake_all_keeps_entry pre msg_id future w0 Hentry1 Hpre) as Hentrya.
  destruct (intake_all_frame pre w0) as (_ & _ & _ & _ & _ & _ & Hsuba).
  fold a in Hwfa, Hentrya, Hsuba.
  destruct (intake_settles message msg_id future a) as (Hpb & Hfb' & _); try done.
  { destruct Hwfa as [Hpend _]. by apply (Hpend msg_id). }
  assert (futures (proc (intake message a)) !! future = Some (settled_by message)) as Hfb.
  { rewrite Hfb'. apply list_lookup_insert_eq. eapply lookup_lt_Some.
    destruct Hwfa as [Hpend _]. by apply (Hpend msg_id). }
  set (b := intake message a) in *.
  assert (∀ id, pending_requests (ipc b) !! id ≠ Some future) as Hfree.
  { intros id. rewrite Hpb. intros [Hid Hlook]%lookup_delete_Some.
    apply Hid. destruct Hwfa as [_ Hinj]. by apply (Hinj msg_id id future). }
  pose proof (intake_all_keeps_future post future b Hfree) as Hfc.
  destruct (intake_all_frame post b) as (_ & _ & _ & _ & _ & _ & Hsubc).
  set (c := fold_left (fun w message => intake message w) post b) in *.
  rewrite Hfc, Hfb.
  assert (pending_requests (ipc c) !! msg_id = None) as Hgone.
  { destruct (pending_requests (ipc c) !! msg_id) as [f|] eqn:Hc; [|done].
    apply (lookup_weaken _ _ _ _ Hc) in Hsubc. rewrite Hpb, lookup_delete_eq in Hsubc.
    discriminate. }
  assert (pending_requests (ipc c) ⊆ pending_requests (ipc w)) as Hsub.
  { etrans; [exact Hsubc|]. rewrite Hpb.
    etrans; [apply delete_mono, Hsuba|]. subst w0 w1. cbn.
    rewrite delete_insert_eq. apply delete_subseteq. }
  pose proof (intake_all_wf post b (intake_wf message a Hwfa)) as Hwfc. fold c in Hwfc.
  unfold settled_by, outcome_of_response.
  destruct (truthy (dict_get "error" message)); cbn; eexists;
    (split; [reflexivity|]; split; [exact Hgone|]; split; [exact Hsub | exact Hwfc]).
Qed.


(** X2.  A request whose response arrives during the wait, after any
    traffic that is not a response to it: the caller gets the data of
    that first response, or the exception made of its error (an error
    that is a string, an integer or a boolean); whatever arrives
    afterwards, duplicates included, changes nothing of it, and the
    registry holds no entry for the id. *)
Theorem send_request_answered action data timeout w (pre post : list Dict) message :
  registry_wf w →
  uuid4 (proc w) (drawn (proc w)) ≠ "" →
  arrivals (proc w) (waits (proc w)) = pre ++ message :: post →
  (∀ m, m ∈ pre → is_response_to (uuid4 (proc w) (drawn (proc w))) m = false) →
  is_response_to (uuid4 (proc w) (drawn (proc w))) message = true →
  str_is_exact (dict_get "error" message) = true →
  fst (send_request action data timeout w) = outcome_of_response message
  ∧ pending_requests (ipc (snd (send_request action data timeout w)))
      !! uuid4 (proc w) (drawn (proc w)) = None.
Proof.
  intros Hwf Hne Harr Hpre Hto _.
  destruct (send_request_first_response action data timeout w pre post message)
    as (w' & -> & Hgone & _); done.
Qed.

(** The response arrives after a request of the host and is followed by
    a duplicate that carries an error. *)
Lemma send_request_answered_witness :
  fst (send_request "storage.get" JNull 30 chatty_world) =
    Return (JObj [("value", JInt 5)])
  ∧ pending_requests (ipc (snd (send_request "storage.get" JNull 30 chatty_world)))
      !! "req-0" = None.
Proof.
  apply (send_request_answered "storage.get" JNull 30 chatty_world
           [request_without_id]
           [[("id", JStr "req-0"); ("type", JStr "response"); ("error", JStr "too late")]]
           [("id", JStr "req-0"); ("type", JStr "response");
            ("data", JObj [("value", JInt 5)])]).
  - apply (registry_wf_reachable demo_info 1700000000 demo_ids _ []).
  - discriminate.
  - reflexivity.
  - intros m Hm. apply elem_of_cons in Hm as [->|Hm]; [reflexivity|].
    by apply elem_of_nil in Hm.
  - reflexivity.
  - reflexivity.
Defined.





(** X4.  [_handle_message] answers nothing and runs no handler: for any
    message, stdout and the plugin object are unchanged, the registry
    gets no new entry, and the task queue has grown by the task of the
    message, one for a request or an event and none otherwise. *)
Theorem handle_message_only_queues message w :
  tasks (proc (snd (_handle_message message w))) = tasks (proc w) ++ task_of message
  ∧ stdout (proc (snd (_handle_message message w))) = stdout (proc w)
  ∧ self (snd (_handle_message message w)) = self w
  ∧ pending_requests (ipc (snd (_handle_message message w))) ⊆ pending_requests (ipc w).
Proof.
  unfold _handle_message, task_of. cbv zeta.
  destruct (is_str "response" (dict_get "type" message)).
  - rewrite app_nil_r.
    destruct (truthy (dict_get "id" message)); [|done].
    destruct (dict_get "id" message) as [| | | |s|items|fields]; cbn [py_lookup]; try done.
    cbn -[set_exception set_result].
    destruct (pending_requests (ipc w) !! s) as [future|]; [|done].
    unfold set_exception, set_result, complete. cbn.
    destruct (futures (proc w) !! future) as [[]|];
      destruct (truthy (dict_get "error" message)); cbn;
      repeat (split; [done|]); (done || apply delete_subseteq).
  - destruct (is_str "request" (dict_get "type" message)); [done|].
    destruct (is_str "event" (dict_get "type" message)); [done|].
    cbn. by rewrite app_nil_r.
Qed.



End Responses.

(** ** Dispatch of commands and events *)

Section Dispatch.

Implicit Types (w : World) (T : Tables) (P : Plugin).

(** X6.  A command that has no handler (a name never registered, or
    [None], an integer or a boolean): [dispatch_command] raises "Unknown
    command: <name>" and counts nothing; the process, the IPC client and
    the plugin object are as before, but for two lines of the logger, a
    debug line and then the warning that names the command. *)
Theorem dispatch_unknown_command T (command event args : JSON) w :
  py_lookup command (_command_handlers T) = Return None →
  str_is_exact command = true →
  fst (dispatch_command T command event args w) =
    Raise (Exception ("Unknown command: " +:+ py_str command))
  ∧ proc (snd (dispatch_command T command event args w)) = proc w
  ∧ ipc (snd (dispatch_command T command event args w)) = ipc w
  ∧ set_logger (logger (self w)) (self (snd (dispatch_command T command event args w))) = self w
  ∧ ∃ debug_text,
      lines_written w (snd (dispatch_command T command event args w)) =
        [{| level := Debug; text := debug_text |};
         {| level := Warn; text := "未找到指令处理器: " +:+ py_str command |}].
Proof.
  intros Hnone _. unfold dispatch_command. cbv zeta. rewrite Hnone. cbn.
  repeat (split; [by destruct w as [p c []]|]).
  eexists. unfold lines_written. cbn. rewrite drop_all.
  by rewrite <- app_assoc, drop_app_length.
Qed.

Lemma dispatch_unknown_command_witness :
  fst (dispatch_command (tables demo_registered.1) (JStr "pystats") demo_event (JArr [])
         demo_registered.2) =
    Raise (Exception "Unknown command: pystats")
  ∧ proc (snd (dispatch_command (tables demo_registered.1) (JStr "pystats") demo_event
                 (JArr []) demo_registered.2)) = proc demo_registered.2
  ∧ ipc (snd (dispatch_command (tables demo_registered.1) (JStr "pystats") demo_event
                (JArr []) demo_registered.2)) = ipc demo_registered.2
  ∧ set_logger (logger (self demo_registered.2))
      (self (snd (dispatch_command (tables demo_registered.1) (JStr "pystats") demo_event
                    (JArr []) demo_registered.2))) = self demo_registered.2
  ∧ ∃ debug_text,
      lines_written demo_registered.2
        (snd (dispatch_command (tables demo_registered.1) (JStr "pystats") demo_event
                (JArr []) demo_registered.2)) =
        [{| level := Debug; text := debug_text |};
         {| level := Warn; text := "未找到指令处理器: pystats" |}].
Proof.
  apply (dispatch_unknown_command (tables demo_registered.1) (JStr "pystats") demo_event
           (JArr []) demo_registered.2).
  - reflexivity.
  - reflexivity.
Defined.

(** What the wrapper of an event handler gives back and counts. *)
Lemma event_wrapped_handler_outcome event_type handler event w :
  fst (event_wrapped_handler event_type handler event w) =
    match fst (handler event (enter_wrapper count_event w)) with
    | Return _ => Return tt
    | Raise error => Raise error
    end.
Proof.
  unfold event_wrapped_handler. cbv zeta.
  destruct (handler event (enter_wrapper count_event w)) as [[r|e] w2]; cbn; [done|].
  by destruct (exn_is_Exception e).
Qed.

Lemma event_wrapped_handler_count event_type handler event w :
  events_handled (statistics (self (snd (event_wrapped_handler event_type handler event w)))) =
  events_handled (statistics (self (snd (handler event (enter_wrapper count_event w))))).
Proof.
  unfold event_wrapped_handler. cbv zeta.
  destruct (handler event (enter_wrapper count_event w)) as [[r|e] w2]; cbn [snd].
  - by rewrite statistics_leave_wrapper.
  - destruct (exn_is_Exception e); cbn [snd]; rewrite statistics_leave_wrapper; [|done].
    by rewrite statistics_record_error.
Qed.

(** The loop of [dispatch_event] over wrapped handlers. *)
Lemma run_event_handlers_all event_type (handlers : list (JSON → M JSON)) event_data w :
  (∀ h ev w0, h ∈ handlers →
     events_handled (statistics (self (snd (h ev w0)))) =
     events_handled (statistics (self w0))) →
  (∀ h ev w0 e, h ∈ handlers → fst (h ev w0) = Raise e → exn_is_Exception e = true) →
  fst (run_event_handlers (map (event_wrapped_handler event_type) handlers) event_data w) =
    Return tt
  ∧ events_handled
      (statistics (self (snd (run_event_handlers
                                (map (event_wrapped_handler event_type) handlers)
                                event_data w)))) =
    events_handled (statistics (self w)) + Z.of_nat (length handlers).
Proof.
  revert w. induction handlers as [|h handlers IH]; intros w Hframe Hexc.
  { cbn. split; [done | lia]. }
  assert (h ∈ h :: handlers) as Hh by (by left).
  cbn [map run_event_handlers].
  pose proof (event_wrapped_handler_outcome event_type h event_data w) as Hout.
  pose proof (event_wrapped_handler_count event_type h event_data w) as Hcount.
  rewrite (Hframe h _ _ Hh), statistics_enter_wrapper in Hcount. cbn in Hcount.
  pose proof (Hexc h event_data (enter_wrapper count_event w)) as He.
  destruct (event_wrapped_handler event_type h event_data w) as [o w1].
  cbn [fst snd] in Hout, Hcount.
  assert (∀ w', events_handled (statistics (self w')) = events_handled (statistics (self w1)) →
            fst (run_event_handlers (map (event_wrapped_handler event_type) handlers)
                   event_data w') = Return tt
            ∧ events_handled
                (statistics (self (snd (run_event_handlers
                                          (map (event_wrapped_handler event_type) handlers)
                                          event_data w')))) =
              events_handled (statistics (self w)) + Z.of_nat (length (h :: handlers))) as Hrest.
  { intros w' Hw'. destruct (IH w') as [Hr Hc].
    - intros h' ev w0 Hin. apply Hframe. by right.
    - intros h' ev w0 e Hin. apply Hexc. by right.
    - split; [done|]. rewrite Hc, Hw', Hcount. cbn [length]. lia. }
  destruct (fst (h event_data (enter_wrapper count_event w))) as [r|e] eqn:Hfst; subst o.
  - by apply Hrest.
  - rewrite (He e Hh eq_refl). by apply Hrest.
Qed.

(** X7.  An event whose handlers were registered through
    [register_event], each leaving the event counter alone and raising
    nothing outside [Exception]: [dispatch_event] calls every one of
    them, also after one has failed, and returns normally;
    [events_handled] has grown by the number of handlers. *)
Theorem dispatch_event_runs_every_handler
    T (event_type : string) (handlers : list (JSON → M JSON)) (event_data : JSON) w :
  _event_handlers T !! event_type = Some (map (event_wrapped_handler event_type) handlers) →
  (∀ h ev w0, h ∈ handlers →
     events_handled (statistics (self (snd (h ev w0)))) =
     events_handled (statistics (self w0))) →
  (∀ h ev w0 e, h ∈ handlers → fst (h ev w0) = Raise e → exn_is_Exception e = true) →
  fst (dispatch_event T (JStr event_type) event_data w) = Return tt
  ∧ events_handled (statistics (self (snd (dispatch_event T (JStr event_type) event_data w)))) =
    events_handled (statistics (self w)) + Z.of_nat (length handlers).
Proof.
  intros Hreg Hframe Hexc. unfold dispatch_event. cbn [py_lookup]. rewrite Hreg.
  by apply run_event_handlers_all.
Qed.

(** The two handlers of the example plugin: the first one fails, both
    are counted. *)
Lemma dispatch_event_runs_every_handler_witness :
  fst (dispatch_event (tables demo_listening.1) (JStr "message") demo_event demo_listening.2) =
    Return tt
  ∧ events_handled
      (statistics (self (snd (dispatch_event (tables demo_listening.1) (JStr "message")
                                demo_event demo_listening.2)))) =
    events_handled (statistics (self demo_listening.2)) + 2.
Proof.
  apply (dispatch_event_runs_every_handler (tables demo_listening.1) "message"
           [on_message_broken; on_message_count] demo_event demo_listening.2).
  - reflexivity.
  - intros h ev w0 Hh.
    apply elem_of_cons in Hh as [->|Hh]; [reflexivity|].
    apply elem_of_cons in Hh as [->|Hh]; [reflexivity|].
    by apply elem_of_nil in Hh.
  - intros h ev w0 e Hh.
    apply elem_of_cons in Hh as [->|Hh]; [by intros [= <-]|].
    apply elem_of_cons in Hh as [->|Hh]; [discriminate|].
    by apply elem_of_nil in Hh.
Defined.

Example second_handler_ran_after_failure :
  attrs (self (snd (dispatch_event (tables demo_listening.1) (JStr "message") demo_event
                      demo_listening.2))) !! "message_count" = Some (JInt 1)
  ∧ errors_occurred
      (statistics (self (snd (dispatch_event (tables demo_listening.1) (JStr "message")
                                demo_event demo_listening.2)))) = 1.
Proof. vm_compute. split; reflexivity. Qed.

(** X8.  Handlers registered for an event type are kept in the order of
    their registration, after those the type already had; the handlers
    of other types, of commands, of tasks and of the IPC client are
    untouched, and so are the process and the IPC client. *)
Theorem register_events_in_order
    (event_type : string) (handlers : list (JSON → M JSON)) P w :
  default [] (_event_handlers (tables (register_events event_type handlers P w).1)
                !! event_type) =
    default [] (_event_handlers (tables P) !! event_type)
    ++ map (event_wrapped_handler event_type) handlers
  ∧ (∀ other, other ≠ event_type →
       _event_handlers (tables (register_events event_type handlers P w).1) !! other =
       _event_handlers (tables P) !! other)
  ∧ _command_handlers (tables (register_events event_type handlers P w).1) =
      _command_handlers (tables P)
  ∧ _task_handlers (tables (register_events event_type handlers P w).1) =
      _task_handlers (tables P)
  ∧ event_handlers (register_events event_type handlers P w).1 = event_handlers P
  ∧ proc (register_events event_type handlers P w).2 = proc w
  ∧ ipc (register_events event_type handlers P w).2 = ipc w.
Proof.
  revert P w. induction handlers as [|h handlers IH]; intros P w.
  { cbn. by rewrite app_nil_r. }
  cbn [register_events].
  destruct (register_event event_type h P w) as [P1 w1] eqn:Hreg.
  unfold register_event in Hreg. injection Hreg as <- <-.
  match goal with
  | |- context [register_events event_type handlers ?P' ?w'] =>
      destruct (IH P' w') as (Hl & Ho & Hc & Ht & Hi & Hp & Hipc)
  end.
  rewrite Hl, Hc, Ht, Hi, Hp, Hipc. cbn.
  rewrite lookup_insert_eq. cbn. rewrite <- app_assoc. cbn.
  repeat (split; [done|]). split; [|done].
  intros other Hother. rewrite Ho by done. cbn. by rewrite lookup_insert_ne.
Qed.

End Dispatch.

(** ** Scheduled tasks *)

Section Tasks.

Implicit Types (w : World) (T : Tables) (P : Plugin).

(** Without a stored handler [dispatch_task] does nothing. *)
Lemma dispatch_task_without_handler T (name : string) w :
  _task_handlers T !! name = None →
  dispatch_task T (JStr name) w = (Return tt, w).
Proof.
  intros Hnone. unfold dispatch_task, py_lookup, py_str.
  destruct (_scheduled_tasks (self w) !! name); [|done].
  unfold M in *. by rewrite Hnone.
Qed.

(** X9.  A [schedule] whose registration the host does not answer raises
    the timeout of the request; the task is entered in
    [_scheduled_tasks] but has no handler, also when the name had one
    before, so that [dispatch_task] of that name does nothing, in any
    state. *)
Theorem schedule_unanswered_disables_task (name cron : string) (handler : M JSON) P w :
  registry_wf w →
  (∀ message, message ∈ arrivals (proc w) (waits (proc w)) →
              is_response_to (uuid4 (proc w) (drawn (proc w))) message = false) →
  (schedule name cron handler P w).1.1 =
    Raise (Exception "Request timeout: registerSchedule")
  ∧ _scheduled_tasks (self (schedule name cron handler P w).2) !! name =
      Some (new_task_info name cron)
  ∧ _task_handlers (tables (schedule name cron handler P w).1.2) !! name = None
  ∧ ∀ w2, dispatch_task (tables (schedule name cron handler P w).1.2) (JStr name) w2 =
          (Return tt, w2).
Proof.
  intros Hwf Hnot. unfold schedule. cbv zeta.
  match goal with
  | |- context [send_request ?a ?d ?t ?x] =>
      destruct (send_request_timeout a d t x) as (w' & -> & _ & _ & _ & _ & _ & _ & _ & Hs)
  end; [exact Hwf | exact Hnot |].
  cbn [fst snd]. rewrite Hs. cbn -[dispatch_task].
  split; [done|]. split; [by rewrite lookup_insert_eq|].
  split; [apply lookup_delete_eq|].
  intros w2. apply dispatch_task_without_handler. cbn. apply lookup_delete_eq.
Qed.

Lemma schedule_unanswered_disables_task_witness :
  (schedule "hourly_stats" "0 0 * * * *" hourly_task demo_plugin busy_world).1.1 =
    Raise (Exception "Request timeout: registerSchedule")
  ∧ _scheduled_tasks
      (self (schedule "hourly_stats" "0 0 * * * *" hourly_task demo_plugin busy_world).2)
      !! "hourly_stats" = Some (new_task_info "hourly_stats" "0 0 * * * *")
  ∧ _task_handlers
      (tables (schedule "hourly_stats" "0 0 * * * *" hourly_task demo_plugin busy_world).1.2)
      !! "hourly_stats" = None
  ∧ ∀ w2, dispatch_task
            (tables (schedule "hourly_stats" "0 0 * * * *" hourly_task demo_plugin
                       busy_world).1.2)
            (JStr "hourly_stats") w2 = (Return tt, w2).
Proof.
  apply (schedule_unanswered_disables_task "hourly_stats" "0 0 * * * *" hourly_task
           demo_plugin busy_world).
  - apply (registry_wf_reachable demo_info 1700000000 demo_ids _ []).
  - intros message Hin. cbn in Hin.
    apply elem_of_cons in Hin as [->|Hin]; [reflexivity|].
    apply elem_of_cons in Hin as [->|Hin]; [reflexivity|].
    by apply elem_of_nil in Hin.
Defined.



(** The last entry of the error log after a recording. *)
Lemma record_error_last ty src e w :
  last (errors (self (_record_error ty src e w))) = Some (error_info_of ty src e w).
Proof.
  rewrite record_error_errors. cbn zeta. case_decide.
  - destruct (errors (self w)) as [|x l]; cbn in *; [lia|]. by rewrite last_snoc.
  - by rewrite last_snoc.
Qed.

Lemma statistics_logger_log lvl text w :
  statistics (self (logger_log lvl text w)) = statistics (self w).
Proof. reflexivity. Qed.

Lemma errors_logger_log lvl text w :
  errors (self (logger_log lvl text w)) = errors (self w).
Proof. reflexivity. Qed.

(** X11.  The failure of a task stops in [dispatch_task]: when the
    handler of a scheduled task raises an exception, [dispatch_task]
    returns normally, and the error has been recorded once, as the last
    entry of the error log, with type ['task'] and the name of the task
    as its source. *)
Theorem dispatch_task_contains_failure
    T (name : string) (handler : M JSON) (info0 : TaskInfo) (error : PyExn) w w2 :
  _scheduled_tasks (self w) !! name = Some info0 →
  _task_handlers T !! name = Some (task_wrapped_handler name handler) →
  handler (state_at_call (InvokeTask name handler) w) = (Raise error, w2) →
  exn_is_Exception error = true →
  fst (dispatch_task T (JStr name) w) = Return tt
  ∧ errors_occurred (statistics (self (snd (dispatch_task T (JStr name) w)))) =
      errors_occurred (statistics (self w2)) + 1
  ∧ last (errors (self (snd (dispatch_task T (JStr name) w)))) =
      Some (error_info_of "task" name error w2).
Proof.
  intros Hinfo Hreg Hrun Hexc.
  unfold dispatch_task, py_lookup, py_str. rewrite Hinfo.
  unfold M in *. rewrite Hreg.
  unfold task_wrapped_handler, state_at_call in *. cbv zeta in *.
  rewrite Hrun, Hexc. rewrite Hexc. cbn [fst snd].
  split; [done|]. rewrite statistics_logger_log, errors_logger_log. split.
  - unfold _record_error. by rewrite statistics_record_error.
  - apply record_error_last.
Qed.

Lemma dispatch_task_contains_failure_witness :
  fst (dispatch_task nightly_tables (JStr "nightly") nightly_world) = Return tt
  ∧ errors_occurred
      (statistics (self (snd (dispatch_task nightly_tables (JStr "nightly") nightly_world)))) =
      0 + 1
  ∧ error_type
      <$> last (errors (self (snd (dispatch_task nightly_tables (JStr "nightly")
                                     nightly_world)))) = Some "task".
Proof.
  destruct (dispatch_task_contains_failure nightly_tables "nightly" broken_task
              (new_task_info "nightly" "0 3 * * *")
              {| exn_class := "ValueError"; exn_is_Exception := true;
                 exn_message := "bad argument"; exn_traceback := "Traceback ..." |}
              nightly_world
              (snd (broken_task (state_at_call (InvokeTask "nightly" broken_task)
                                   nightly_world))))
    as (Hout & Hcount & Hlast); [reflexivity..|].
  split; [exact Hout|]. split; [exact Hcount|]. by rewrite Hlast.
Defined.

End Tasks.

(** ** The dispatch requests of the host *)

Section HostRequests.

Implicit Types (w : World) (P : Plugin) (message : Dict).







End HostRequests.

Section StorageOps.

Implicit Types (w : World) (self_storage : Storage).



(** X15.  When the host does not answer, every operation of the storage
    gives its default: [get] and [get_config] the default value of the
    caller, [keys] the empty list, the others [False]. *)
Theorem storage_unanswered_gives_defaults
    self_storage (key : string) (value default_value : JSON) w :
  registry_wf w →
  (∀ message, message ∈ arrivals (proc w) (waits (proc w)) →
              is_response_to (uuid4 (proc w) (drawn (proc w))) message = false) →
  fst (storage_get self_storage key default_value w) = Return default_value
  ∧ fst (storage_set self_storage key value w) = Return (JBool false)
  ∧ fst (storage_delete self_storage key w) = Return (JBool false)
  ∧ fst (storage_has self_storage key w) = Return (JBool false)
  ∧ fst (storage_keys self_storage w) = Return (JArr [])
  ∧ fst (storage_clear self_storage w) = Return (JBool false)
  ∧ fst (get_config self_storage key default_value w) = Return default_value
  ∧ fst (set_config self_storage key value w) = Return (JBool false).
Proof.
  intros Hwf Hnone.
  unfold get_config, set_config, storage_get, storage_set, storage_delete, storage_has,
    storage_keys, storage_clear.
  repeat split;
    match goal with
    | |- context [send_request ?action ?data 30 w] =>
        destruct (send_request_timeout action data 30 w Hwf Hnone) as (w' & -> & _)
    end; reflexivity.
Qed.

(** The host sends other traffic but no response. *)
Lemma storage_unanswered_gives_defaults_witness :
  fst (storage_get (new_storage demo_info) "greeting" (JStr "hello") busy_world) =
    Return (JStr "hello")
  ∧ fst (storage_set (new_storage demo_info) "greeting" (JStr "hi") busy_world) =
      Return (JBool false)
  ∧ fst (storage_delete (new_storage demo_info) "greeting" busy_world) = Return (JBool false)
  ∧ fst (storage_has (new_storage demo_info) "greeting" busy_world) = Return (JBool false)
  ∧ fst (storage_keys (new_storage demo_info) busy_world) = Return (JArr [])
  ∧ fst (storage_clear (new_storage demo_info) busy_world) = Return (JBool false)
  ∧ fst (get_config (new_storage demo_info) "greeting" (JStr "hello") busy_world) =
      Return (JStr "hello")
  ∧ fst (set_config (new_storage demo_info) "greeting" (JStr "hi") busy_world) =
      Return (JBool false).
Proof.
  apply (storage_unanswered_gives_defaults (new_storage demo_info) "greeting" (JStr "hi")
           (JStr "hello") busy_world).
  - apply (registry_wf_reachable demo_info 1700000000 demo_ids _ []).
  - intros message Hin.
    apply elem_of_cons in Hin as [->|Hin]; [reflexivity|].
    apply elem_of_cons in Hin as [->|Hin]; [reflexivity|].
    by apply elem_of_nil in Hin.
Defined.



End StorageOps.

Section RecorderInvariants.

Implicit Types (w : World) (k : PerfKind) (name : string).

Lemma py_min_le a b : (py_min a b <= b)%Q.
Proof.
  destruct a as [a|]; cbn; [|lra].
  destruct (Qle_bool a b) eqn:H; [by apply Qle_bool_iff | lra].
Qed.

Lemma py_min_le_old a b : (py_min (Some a) b <= a)%Q.
Proof.
  cbn. destruct (Qle_bool a b) eqn:H; [lra|].
  destruct (Qlt_le_dec b a) as [Hlt|Hle]; [lra|].
  apply Qle_bool_iff in Hle. congruence.
Qed.

Lemma py_max_ge a b : (b <= py_max a b)%Q.
Proof.
  unfold py_max. destruct (Qle_bool b a) eqn:H; [by apply Qle_bool_iff | lra].
Qed.

Lemma py_max_ge_old a b : (a <= py_max a b)%Q.
Proof.
  unfold py_max. destruct (Qle_bool b a) eqn:H; [lra|].
  destruct (Qlt_le_dec a b) as [Hlt|Hle]; [lra|].
  apply Qle_bool_iff in Hle. congruence.
Qed.

Lemma py_min_nonneg a b :
  (0 <= b)%Q → (∀ a', a = Some a' → (0 <= a')%Q) → (0 <= py_min a b)%Q.
Proof.
  intros Hb Ha. destruct a as [a|]; cbn; [|done].
  destruct (Qle_bool a b); [by apply Ha | done].
Qed.

Lemma Forall_tail_keeps {A} (P : A → Prop) (l : list A) : Forall P l → Forall P (tail l).
Proof. intros H. destruct H; [constructor | done]. Qed.

(** One more execution in a record that is new or within its bounds. *)
Lemma add_sample_bounded ts d ok (perf : PerfRecord) :
  Qle_bool 0 d = true →
  perf = new_perf_record ∨ durations_bounded perf →
  durations_bounded (add_sample ts d ok perf).
Proof.
  intros Hd%Qle_bool_iff Hperf.
  exists (py_min (min_duration perf) d). split; [reflexivity|].
  pose proof (py_min_le (min_duration perf) d) as Hmin.
  pose proof (py_max_ge (max_duration perf) d) as Hmax.
  unfold add_sample; cbn [max_duration last_executions].
  destruct Hperf as [-> | (m & Hm & Hm0 & Hmm & Hall)].
  - cbn [min_duration max_duration last_executions new_perf_record] in *.
    cbn [py_min] in *. split; [done|]. split; [done|].
    constructor; [|constructor]. split; [apply Qle_refl | exact Hmax].
  - rewrite Hm in *.
    pose proof (py_min_le_old m d) as Hmin'.
    pose proof (py_max_ge_old (max_duration perf) d) as Hmax'.
    split; [apply py_min_nonneg; [done | by intros a' [= <-]]|].
    split; [lra|].
    assert (Forall (fun sample =>
                      (py_min (Some m) d <= sample_duration sample)%Q
                      ∧ (sample_duration sample <= py_max (max_duration perf) d)%Q)
              (last_executions perf ++
               [{| sample_timestamp := ts; sample_duration := d; sample_success := ok |}]))
      as Hnew.
    { apply Forall_app. split.
      - eapply Forall_impl; [exact Hall|]. cbv beta. intros s [? ?]. split; lra.
      - constructor; [|constructor]. cbn [sample_duration]. split; done. }
    case_decide; [by apply Forall_tail_keeps | done].
Qed.

(** The executions counted in a record, none when there is no record. *)
Lemma record_counts_execution r w k name :
  default 0 (total_executions <$> perf_map k (performance (self (record r w))) !! name) =
  default 0 (total_executions <$> perf_map k (performance (self w)) !! name)
  + (if is_execution k name r then 1 else 0).
Proof.
  destruct r as [ty src e | pt n d ok]; cbn [record is_execution].
  - rewrite record_error_performance. lia.
  - destruct (Qle_bool 0 d) eqn:Hd.
    + rewrite record_performance_lookup by done.
      rewrite andb_true_r.
      destruct (decide (k = perf_kind pt ∧ name = n)) as [[-> ->]|Hne].
      * rewrite bool_decide_eq_true_2 by done. cbn.
        destruct (perf_map _ _ !! n); cbn; lia.
      * rewrite bool_decide_eq_false_2; [lia|]. intros [<- <-]. by apply Hne.
    + rewrite record_performance_dropped by done. rewrite andb_false_r. lia.
Qed.

Lemma record_all_counts_executions rs w k name :
  default 0 (total_executions <$> perf_map k (performance (self (record_all rs w))) !! name) =
  default 0 (total_executions <$> perf_map k (performance (self w)) !! name)
  + Z.of_nat (count_executions k name rs).
Proof.
  revert w. induction rs as [|r rs IH]; intros w; cbn; [lia|].
  unfold record_all in IH. rewrite IH, record_counts_execution.
  unfold count_executions. cbn. destruct (is_execution k name r); cbn; lia.
Qed.

(** The window of a record and the number of its executions. *)
Lemma record_keeps_window_length r w :
  (∀ k name perf, perf_map k (performance (self w)) !! name = Some perf →
     1 ≤ total_executions perf
     ∧ length (last_executions perf) = Z.to_nat (Z.min (total_executions perf) 20)
     ∧ durations_bounded perf) →
  ∀ k name perf, perf_map k (performance (self (record r w))) !! name = Some perf →
     1 ≤ total_executions perf
     ∧ length (last_executions perf) = Z.to_nat (Z.min (total_executions perf) 20)
     ∧ durations_bounded perf.
Proof.
  intros Hinv k name perf. destruct r as [ty src e | pt n d ok]; cbn [record].
  - rewrite record_error_performance. apply Hinv.
  - destruct (Qle_bool 0 d) eqn:Hd.
    + rewrite record_performance_lookup by done.
      case_decide as Heq; [|apply Hinv].
      intros [= <-].
      destruct (perf_map (perf_kind pt) (performance (self w)) !! n) as [old|] eqn:Hold.
      * destruct (Hinv _ _ _ Hold) as (Hone & Hlen & Hb). cbn [default].
        split; [cbn; lia|]. split.
        -- unfold add_sample; cbn [last_executions total_executions].
           case_decide as Hfull; rewrite length_app in Hfull; cbn in Hfull.
           ++ destruct (last_executions old) as [|s l] eqn:Hl; cbn in *; [lia|].
              rewrite Hl. cbn. rewrite length_app. cbn. lia.
           ++ rewrite length_app. cbn. lia.
        -- apply add_sample_bounded; [done | by right].
      * cbn [default]. split; [cbn; lia|]. split; [reflexivity|].
        apply add_sample_bounded; [done | by left].
    + rewrite record_performance_dropped by done. apply Hinv.
Qed.

Lemma record_all_keeps_window_length rs w :
  (∀ k name perf, perf_map k (performance (self w)) !! name = Some perf →
     1 ≤ total_executions perf
     ∧ length (last_executions perf) = Z.to_nat (Z.min (total_executions perf) 20)
     ∧ durations_bounded perf) →
  ∀ k name perf, perf_map k (performance (self (record_all rs w))) !! name = Some perf →
     1 ≤ total_executions perf
     ∧ length (last_executions perf) = Z.to_nat (Z.min (total_executions perf) 20)
     ∧ durations_bounded perf.
Proof.
  revert w. induction rs as [|r rs IH]; intros w Hinv; [exact Hinv|].
  cbn. apply IH. by apply record_keeps_window_length.
Qed.

(** X17.  After any sequence of recordings on a new plugin, a stored
    performance record has counted exactly the recordings of its name and
    kind whose duration is not negative, at least one; its window holds
    the last 20 of them or all; [min_duration] is a duration (not the
    initial infinity), not negative and not above [max_duration], and
    every duration of the window lies between the two. *)
Theorem performance_record_bounds
    (plugin_info : PluginInfo) (now : Q) (ids : nat → string)
    (inbound : nat → list Dict) (rs : list Recording)
    (k : PerfKind) (name : string) (perf : PerfRecord) :
  perf_map k (performance (self (record_all rs (new_world plugin_info now ids inbound))))
    !! name = Some perf →
  total_executions perf = Z.of_nat (count_executions k name rs)
  ∧ (1 ≤ count_executions k name rs)%nat
  ∧ length (last_executions perf) = (count_executions k name rs `min` 20)%nat
  ∧ durations_bounded perf.
Proof.
  intros Hperf.
  pose proof (record_all_counts_executions rs (new_world plugin_info now ids inbound) k name)
    as Hcount.
  rewrite Hperf in Hcount. cbn [fmap option_fmap option_map default] in Hcount.
  assert (∀ k name,
            perf_map k (performance (self (new_world plugin_info now ids inbound))) !! name
            = None) as Hnew by (intros k' name'; destruct k'; cbn; by rewrite lookup_empty).
  rewrite Hnew in Hcount. cbn in Hcount.
  destruct (record_all_keeps_window_length rs (new_world plugin_info now ids inbound))
    with (k := k) (name := name) (perf := perf) as (Hone & Hlen & Hb); [|exact Hperf|].
  { intros k' name' perf'. by rewrite Hnew. }
  split; [exact Hcount|]. split; [lia|]. split; [lia | exact Hb].
Qed.

(** Three recordings of [pyhello], one of them with a negative duration. *)
Lemma performance_record_bounds_witness :
  ∃ perf,
    perf_map CommandPerf
      (performance (self (record_all [RecPerformance "command" "pyhello" 12 true;
                                      RecPerformance "command" "pyhello" (-1) true;
                                      RecPerformance "command" "pyhello" 30 false]
                            demo_world))) !! "pyhello" = Some perf
    ∧ total_executions perf = 2
    ∧ length (last_executions perf) = 2%nat
    ∧ durations_bounded perf.
Proof.
  eexists. split; [vm_compute; reflexivity|].
  destruct (performance_record_bounds demo_info 1700000000 demo_ids (fun _ => [])
              [RecPerformance "command" "pyhello" 12 true;
               RecPerformance "command" "pyhello" (-1) true;
               RecPerformance "command" "pyhello" 30 false] CommandPerf "pyhello" _
              ltac:(vm_compute; reflexivity)) as (Htotal & _ & Hlen & Hb).
  split; [exact Htotal|]. split; [exact Hlen | exact Hb].
Defined.

(** The error counter and the error log. *)
Lemma record_counts_error r w :
  errors_occurred (statistics (self (record r w))) =
    errors_occurred (statistics (self w)) + (if is_error_recording r then 1 else 0)
  ∧ ((length (errors (self w)) ≤ 100)%nat →
     length (errors (self (record r w))) =
       ((length (errors (self w)) + (if is_error_recording r then 1 else 0)) `min` 100)%nat).
Proof.
  destruct r as [ty src e | pt n d ok]; cbn [record is_error_recording].
  - split.
    + unfold _record_error. rewrite statistics_record_error. reflexivity.
    + intros Hcap. rewrite record_error_errors. cbv zeta.
      rewrite evict_oldest by lia. case_decide as Hfull.
      * rewrite length_app. destruct (errors (self w)); cbn in *; lia.
      * rewrite length_app. cbn. lia.
  - split.
    + unfold _record_performance. rewrite statistics_record_performance. lia.
    + intros Hcap. rewrite record_performance_errors. lia.
Qed.

(** X18.  The error counter and the error log part at 100: after any
    sequence of recordings, [errors_occurred] has grown by the number of
    errors recorded, while the log holds that many more entries only up
    to 100. *)
Theorem error_counter_outgrows_log (rs : list Recording) w :
  (length (errors (self w)) ≤ 100)%nat →
  errors_occurred (statistics (self (record_all rs w))) =
    errors_occurred (statistics (self w)) + Z.of_nat (count_errors rs)
  ∧ length (errors (self (record_all rs w))) =
      ((length (errors (self w)) + count_errors rs) `min` 100)%nat.
Proof.
  revert w. induction rs as [|r rs IH]; intros w Hcap.
  { cbn. split; lia. }
  destruct (record_counts_error r w) as [Hcount Hlen]. specialize (Hlen Hcap).
  destruct (IH (record r w)) as [IHcount IHlen]; [lia|].
  cbn [record_all fold_left] in *. unfold record_all in *.
  rewrite IHcount, IHlen, Hcount, Hlen.
  unfold count_errors. cbn [List.filter]. destruct (is_error_recording r); cbn [length]; lia.
Qed.

(** Two errors and an execution on a new plugin. *)
Lemma error_counter_outgrows_log_witness :
  errors_occurred
    (statistics (self (record_all [RecError "command" "pybroken" (Exception "bad argument");
                                   RecPerformance "command" "pybroken" 5 false;
                                   RecError "task" "nightly" (Exception "no disk")]
                         demo_world))) = 2
  ∧ length (errors (self (record_all [RecError "command" "pybroken" (Exception "bad argument");
                                      RecPerformance "command" "pybroken" 5 false;
                                      RecError "task" "nightly" (Exception "no disk")]
                            demo_world))) = 2%nat.
Proof.
  apply (error_counter_outgrows_log
           [RecError "command" "pybroken" (Exception "bad argument");
            RecPerformance "command" "pybroken" 5 false;
            RecError "task" "nightly" (Exception "no disk")] demo_world).
  cbn. lia.
Defined.

End RecorderInvariants.

Section HighWaterMark.

Implicit Types (w : World) (i : Invocation).

Lemma max_record_performance pt name d ok w :
  _max_concurrent_operations (self (_PluginBase__record_performance_internal pt name d ok w)) =
  _max_concurrent_operations (self w).
Proof. unfold _PluginBase__record_performance_internal. by destruct (Qle_bool 0 d). Qed.

Lemma max_enter_wrapper count w :
  _max_concurrent_operations (self (enter_wrapper count w)) =
  Z.max (_max_concurrent_operations (self w)) (_concurrent_operations (self w) + 1).
Proof. unfold enter_wrapper. cbn. case_decide; cbn; lia. Qed.

Lemma max_leave_wrapper pt name start ok w :
  _max_concurrent_operations (self (leave_wrapper pt name start ok w)) =
  _max_concurrent_operations (self w).
Proof. unfold leave_wrapper. by rewrite max_record_performance. Qed.

Lemma max_state_at_call i w :
  _max_concurrent_operations (self (state_at_call i w)) =
    match i with
    | InvokeTask _ _ => _max_concurrent_operations (self w)
    | _ => Z.max (_max_concurrent_operations (self w)) (_concurrent_operations (self w) + 1)
    end.
Proof. destruct i; cbn -[enter_wrapper]; by rewrite ?max_enter_wrapper. Qed.

(** The [except] block and the [finally] block leave the high-water mark
    alone. *)
Lemma max_except_without_notice i o w :
  awaits_notice i o = false →
  _max_concurrent_operations (self (state_after_except i o w)) =
  _max_concurrent_operations (self w).
Proof.
  intros Hno. destruct o as [r|e]; [done|]. unfold state_after_except.
  destruct (exn_is_Exception e) eqn:He; [|done].
  destruct i as [command handler event args| |].
  - unfold notify_failure.
    destruct event; cbn in Hno; try congruence; cbn [py_get]; apply max_record_error.
  - apply max_record_error.
  - unfold _record_error. apply max_record_error.
Qed.

Lemma invoke_max_end i w :
  _max_concurrent_operations (self (snd (invoke i w))) =
    _max_concurrent_operations
      (self (state_after_except i (fst (underlying i (state_at_call i w)))
               (snd (underlying i (state_at_call i w))))).
Proof.
  destruct (underlying i (state_at_call i w)) as [o w2] eqn:Hrun. cbn [fst snd].
  destruct i; unfold underlying, state_at_call in *; cbv zeta in *;
    unfold invoke, command_wrapped_handler, event_wrapped_handler,
      task_wrapped_handler, state_after_except; cbv zeta; rewrite Hrun.
  - destruct o as [r|e]; [|destruct (exn_is_Exception e)]; cbn [snd];
      by rewrite max_leave_wrapper.
  - destruct o as [r|e]; [|destruct (exn_is_Exception e)]; cbn [snd];
      by rewrite max_leave_wrapper.
  - by destruct o as [r|e]; [|destruct (exn_is_Exception e)].
Qed.

(** X19.  In an invocation that awaits no failure notice and whose own
    handler leaves the counter and the high-water mark alone, the mark
    is never below the concurrency counter; at the end of a command or
    an event it is the larger of its old value and the counter plus one,
    and a scheduled task does not move it. *)
Theorem high_water_mark_follows i w :
  awaits_notice i (fst (underlying i (state_at_call i w))) = false →
  _concurrent_operations (self w) ≤ _max_concurrent_operations (self w) →
  _concurrent_operations (self (snd (underlying i (state_at_call i w)))) =
    _concurrent_operations (self (state_at_call i w)) →
  _max_concurrent_operations (self (snd (underlying i (state_at_call i w)))) =
    _max_concurrent_operations (self (state_at_call i w)) →
  Forall (fun s => _concurrent_operations (self s) ≤ _max_concurrent_operations (self s))
    (invoke_states i w)
  ∧ _max_concurrent_operations (self (snd (invoke i w))) =
      match i with
      | InvokeTask _ _ => _max_concurrent_operations (self w)
      | _ => Z.max (_max_concurrent_operations (self w)) (_concurrent_operations (self w) + 1)
      end.
Proof.
  intros Hno Hle Hconc Hmax.
  pose proof (invoke_counter_end i w) as Hend.
  pose proof (invoke_max_end i w) as Hendmax.
  pose proof (conc_state_at_call_counted i w) as Hat.
  pose proof (max_state_at_call i w) as Hatmax.
  unfold invoke_states.
  destruct (underlying i (state_at_call i w)) as [o w2] eqn:Hrun. cbn [fst snd] in *.
  pose proof (conc_except_without_notice i o w2 Hno) as Hexc.
  pose proof (max_except_without_notice i o w2 Hno) as Hexcmax.
  split; [|rewrite Hendmax, Hexcmax, Hmax; exact Hatmax].
  repeat constructor; destruct i; cbn [counted] in *; lia.
Qed.

(** An event handler that fails, on a new plugin. *)
Lemma high_water_mark_follows_witness :
  Forall (fun s => _concurrent_operations (self s) ≤ _max_concurrent_operations (self s))
    (invoke_states (InvokeEvent "message" on_message_broken demo_event) demo_world)
  ∧ _max_concurrent_operations
      (self (snd (invoke (InvokeEvent "message" on_message_broken demo_event)
                    demo_world))) = 1.
Proof.
  apply (high_water_mark_follows
           (InvokeEvent "message" on_message_broken demo_event) demo_world).
  - reflexivity.
  - reflexivity.
  - reflexivity.
  - reflexivity.
Defined.

End HighWaterMark.

Section Notices.

Implicit Types (w : World) (P : Plugin).




Lemma proc_enter_wrapper count w : proc (enter_wrapper count w) = proc w.
Proof. unfold enter_wrapper. cbn. by case_decide. Qed.






End Notices.

Example escape_example : _escape "a&b,[c]" = "a&amp;b&#44;&#91;c&#93;".
Proof. reflexivity. Qed.

(** A text that holds a code does not come back. *)
Example code_in_text_is_decoded : _unescape (_escape "&#91;") = "[".
Proof. reflexivity. Qed.

Example python_replace_empty : replace "" "-" "abc" = "-a-b-c-".
Proof. reflexivity. Qed.

Example python_replace_overlap : replace "aa" "b" "aaaaa" = "bba".
Proof. reflexivity. Qed.

Section Codec.

Implicit Types (text : string) (c : ascii).

Lemma append_assoc text1 text2 text3 :
  text1 +:+ text2 +:+ text3 = (text1 +:+ text2) +:+ text3.
Proof.
  induction text1 as [|c text1 IH]; [done|].
  change (String c (text1 +:+ text2 +:+ text3) = String c ((text1 +:+ text2) +:+ text3)).
  by rewrite IH.
Qed.

Lemma encode_app code text1 text2 :
  encode code (text1 +:+ text2) = encode code text1 +:+ encode code text2.
Proof.
  induction text1 as [|c text1 IH]; [done|].
  change (code c +:+ encode code (text1 +:+ text2) =
          (code c +:+ encode code text1) +:+ encode code text2).
  rewrite IH. apply append_assoc.
Qed.

Lemma encode_ext code code' text :
  (∀ c, code c = code' c) → encode code text = encode code' text.
Proof. intros H. induction text as [|c text IH]; cbn; [done|]. by rewrite H, IH. Qed.

Lemma encode_encode code code' text :
  encode code' (encode code text) = encode (fun c => encode code' (code c)) text.
Proof.
  induction text as [|c text IH]; cbn; [done|]. by rewrite encode_app, IH.
Qed.

(** The five cases of a character. *)
Lemma stage_code_cases c :
  c = "&"%char ∨ c = "["%char ∨ c = "]"%char ∨ c = ","%char
  ∨ (Ascii.eqb c "&" = false ∧ Ascii.eqb c "[" = false ∧ Ascii.eqb c "]" = false
     ∧ Ascii.eqb c "," = false).
Proof.
  destruct (Ascii.eqb_spec c "&"); [by left|].
  destruct (Ascii.eqb_spec c "["); [by right; left|].
  destruct (Ascii.eqb_spec c "]"); [by right; right; left|].
  destruct (Ascii.eqb_spec c ","); [by right; right; right; left|].
  by repeat right.
Qed.

Lemma stage_code_other amp lbr rbr com c :
  Ascii.eqb c "&" = false → Ascii.eqb c "[" = false → Ascii.eqb c "]" = false →
  Ascii.eqb c "," = false →
  stage_code amp lbr rbr com c = String c "".
Proof. intros H1 H2 H3 H4. unfold stage_code. by rewrite H1, H2, H3, H4. Qed.

Lemma encode_id text : encode (stage_code false false false false) text = text.
Proof.
  induction text as [|c text IH]; cbn [encode]; [done|]. rewrite IH.
  destruct (stage_code_cases c) as [->|[->|[->|[->|(H1 & H2 & H3 & H4)]]]]; try done.
  by rewrite stage_code_other.
Qed.

(** [replace] with a pattern of one character. *)
Lemma replace_char (a : ascii) (new : string) text :
  replace (String a "") new text =
  encode (fun c => if Ascii.eqb a c then new else String c "") text.
Proof.
  unfold replace. induction text as [|c text IH]; [done|].
  cbn [encode]. rewrite <- IH.
  change (replace_from (String a "") new 0 (String c text)) with
    (if Ascii.eqb a c && true
     then new +:+ replace_from (String a "") new 0 text
     else String c (replace_from (String a "") new 0 text)).
  rewrite andb_true_r. by destruct (Ascii.eqb a c).
Qed.

(** One stage of [_escape]. *)
Lemma escape_stage (a : ascii) (new : string) (code code' : ascii → string) text :
  (∀ c, encode (fun c => if Ascii.eqb a c then new else String c "") (code c) = code' c) →
  replace (String a "") new (encode code text) = encode code' text.
Proof.
  intros H. rewrite replace_char, encode_encode. by apply encode_ext.
Qed.

Lemma escape_encodes text : _escape text = encode (stage_code true true true true) text.
Proof.
  unfold _escape.
  rewrite <- (encode_id text) at 1.
  rewrite (escape_stage "&" "&amp;" _ (stage_code true false false false)).
  2: { intros c.
       destruct (stage_code_cases c) as [->|[->|[->|[->|(H1 & H2 & H3 & H4)]]]]; try done.
       rewrite !stage_code_other by done. cbn [encode]. by rewrite Ascii.eqb_sym, H1. }
  rewrite (escape_stage "[" "&#91;" _ (stage_code true true false false)).
  2: { intros c.
       destruct (stage_code_cases c) as [->|[->|[->|[->|(H1 & H2 & H3 & H4)]]]]; try done.
       rewrite !stage_code_other by done. cbn [encode]. by rewrite Ascii.eqb_sym, H2. }
  rewrite (escape_stage "]" "&#93;" _ (stage_code true true true false)).
  2: { intros c.
       destruct (stage_code_cases c) as [->|[->|[->|[->|(H1 & H2 & H3 & H4)]]]]; try done.
       rewrite !stage_code_other by done. cbn [encode]. by rewrite Ascii.eqb_sym, H3. }
  rewrite (escape_stage "," "&#44;" _ (stage_code true true true true)).
  2: { intros c.
       destruct (stage_code_cases c) as [->|[->|[->|[->|(H1 & H2 & H3 & H4)]]]]; try done.
       rewrite !stage_code_other by done. cbn [encode]. by rewrite Ascii.eqb_sym, H4. }
  done.
Qed.

Lemma contains_char_app c text1 text2 :
  contains_char c (text1 +:+ text2) = contains_char c text1 || contains_char c text2.
Proof.
  induction text1 as [|c' text1 IH]; [done|].
  change (Ascii.eqb c c' || contains_char c (text1 +:+ text2) =
          Ascii.eqb c c' || contains_char c text1 || contains_char c text2).
  rewrite IH. by rewrite orb_assoc.
Qed.

(** X22.  The escaped form of any text holds none of the characters
    that delimit a CQ code and its parameters: no ['['], no [']'] and no
    [',']. *)
Theorem escape_leaves_no_delimiter text :
  contains_char "[" (_escape text) = false
  ∧ contains_char "]" (_escape text) = false
  ∧ contains_char "," (_escape text) = false.
Proof.
  rewrite escape_encodes.
  induction text as [|c text (IH1 & IH2 & IH3)]; [done|].
  cbn [encode]. rewrite !contains_char_app, IH1, IH2, IH3, !orb_false_r.
  destruct (stage_code_cases c) as [->|[->|[->|[->|(H1 & H2 & H3 & H4)]]]]; try done.
  rewrite stage_code_other by done. cbn [contains_char]. rewrite !orb_false_r.
  by rewrite !(Ascii.eqb_sym _ c), H2, H3, H4.
Qed.

(** The code of one of the four characters starts with ['&'] or is the
    character. *)
Lemma stage_code_special amp lbr rbr com c :
  c = "&"%char ∨ c = "["%char ∨ c = "]"%char ∨ c = ","%char →
  ∃ tail, stage_code amp lbr rbr com c = String "&" tail
          ∨ stage_code amp lbr rbr com c = String c tail.
Proof.
  intros [-> | [-> | [-> | ->]]].
  - destruct amp; eexists; by left.
  - destruct lbr; eexists; [by left | by right].
  - destruct rbr; eexists; [by left | by right].
  - destruct com; eexists; [by left | by right].
Qed.

(** A pattern without any of the four characters starts the encoded
    text where it starts the text. *)
Lemma startswith_encode amp lbr rbr com (pattern : string) text :
  contains_char "&" pattern = false → contains_char "[" pattern = false →
  contains_char "]" pattern = false → contains_char "," pattern = false →
  startswith pattern (encode (stage_code amp lbr rbr com) text) = startswith pattern text.
Proof.
  revert text. induction pattern as [|a pattern IH]; intros text Ha Hl Hr Hc.
  { by destruct text, (encode _ _). }
  apply orb_false_iff in Ha as [Ha Ha'], Hl as [Hl Hl'], Hr as [Hr Hr'], Hc as [Hc Hc'].
  destruct text as [|c text]; [done|]. cbn [encode].
  change (startswith (String a pattern) (String c text)) with
    (Ascii.eqb a c && startswith pattern text).
  destruct (stage_code_cases c) as [Hs|[Hs|[Hs|[Hs|(H1 & H2 & H3 & H4)]]]].
  1-4: assert (Ascii.eqb a c = false) as Hac
         by (subst c; by rewrite Ascii.eqb_sym);
       destruct (stage_code_special amp lbr rbr com c) as [tail [-> | ->]]; [tauto | |];
       rewrite Hac;
       [change (Ascii.eqb a "&" && startswith pattern
                  (tail +:+ encode (stage_code amp lbr rbr com) text) = false);
        by rewrite Ascii.eqb_sym, Ha
       |change (Ascii.eqb a c && startswith pattern
                  (tail +:+ encode (stage_code amp lbr rbr com) text) = false);
        by rewrite Hac].
  rewrite stage_code_other by done.
  change (Ascii.eqb a c && startswith pattern (encode (stage_code amp lbr rbr com) text)
          = Ascii.eqb a c && startswith pattern text).
  by rewrite IH.
Qed.

(** A character at which [old] does not start. *)
Lemma replace_from_no_match (old new : string) c text :
  String.eqb old "" = false →
  startswith old (String c text) = false →
  replace_from old new 0 (String c text) = String c (replace_from old new 0 text).
Proof. intros Hold Hno. cbn [replace_from]. by rewrite Hold, Hno. Qed.

Lemma unescape_amp text :
  replace "&amp;" "&" (encode (stage_code true true true true) text) =
  encode (stage_code false true true true) text.
Proof.
  unfold replace. induction text as [|c text IH]; [done|].
  cbn [encode]. rewrite <- IH.
  destruct (stage_code_cases c) as [->|[->|[->|[->|(H1 & H2 & H3 & H4)]]]]; try reflexivity.
  rewrite !stage_code_other by done.
  change (String c "" +:+ ?x) with (String c x).
  apply replace_from_no_match; [done|].
  change (Ascii.eqb "&" c && startswith "amp;" (encode (stage_code true true true true) text)
          = false).
  by rewrite Ascii.eqb_sym, H1.
Qed.

Lemma unescape_lbracket text :
  occurs "&#91;" text = false →
  replace "&#91;" "[" (encode (stage_code false true true true) text) =
  encode (stage_code false false true true) text.
Proof.
  unfold replace. induction text as [|c text IH]; [done|].
  intros [Hc Hfree]%orb_false_iff. specialize (IH Hfree).
  cbn [encode]. rewrite <- IH.
  destruct (stage_code_cases c) as [->|[->|[->|[->|(H1 & H2 & H3 & H4)]]]]; try reflexivity.
  - change (startswith "#91;" text = false) in Hc.
    change (stage_code false true true true "&" +:+ ?x) with (String "&" x).
    apply replace_from_no_match; [done|].
    change (startswith "#91;" (encode (stage_code false true true true) text) = false).
    by rewrite startswith_encode.
  - rewrite !stage_code_other by done.
    change (String c "" +:+ ?x) with (String c x).
    apply replace_from_no_match; [done|].
    change (Ascii.eqb "&" c
            && startswith "#91;" (encode (stage_code false true true true) text) = false).
    by rewrite Ascii.eqb_sym, H1.
Qed.

Lemma unescape_rbracket text :
  occurs "&#93;" text = false →
  replace "&#93;" "]" (encode (stage_code false false true true) text) =
  encode (stage_code false false false true) text.
Proof.
  unfold replace. induction text as [|c text IH]; [done|].
  intros [Hc Hfree]%orb_false_iff. specialize (IH Hfree).
  cbn [encode]. rewrite <- IH.
  destruct (stage_code_cases c) as [->|[->|[->|[->|(H1 & H2 & H3 & H4)]]]]; try reflexivity.
  - change (startswith "#93;" text = false) in Hc.
    change (stage_code false false true true "&" +:+ ?x) with (String "&" x).
    apply replace_from_no_match; [done|].
    change (startswith "#93;" (encode (stage_code false false true true) text) = false).
    by rewrite startswith_encode.
  - rewrite !stage_code_other by done.
    change (String c "" +:+ ?x) with (String c x).
    apply replace_from_no_match; [done|].
    change (Ascii.eqb "&" c
            && startswith "#93;" (encode (stage_code false false true true) text) = false).
    by rewrite Ascii.eqb_sym, H1.
Qed.

Lemma unescape_comma text :
  occurs "&#44;" text = false →
  replace "&#44;" "," (encode (stage_code false false false true) text) =
  encode (stage_code false false false false) text.
Proof.
  unfold replace. induction text as [|c text IH]; [done|].
  intros [Hc Hfree]%orb_false_iff. specialize (IH Hfree).
  cbn [encode]. rewrite <- IH.
  destruct (stage_code_cases c) as [->|[->|[->|[->|(H1 & H2 & H3 & H4)]]]]; try reflexivity.
  - change (startswith "#44;" text = false) in Hc.
    change (stage_code false false false true "&" +:+ ?x) with (String "&" x).
    apply replace_from_no_match; [done|].
    change (startswith "#44;" (encode (stage_code false false false true) text) = false).
    by rewrite startswith_encode.
  - rewrite !stage_code_other by done.
    change (String c "" +:+ ?x) with (String c x).
    apply replace_from_no_match; [done|].
    change (Ascii.eqb "&" c
            && startswith "#44;" (encode (stage_code false false false true) text) = false).
    by rewrite Ascii.eqb_sym, H1.
Qed.

(** X23.  [_unescape] undoes [_escape] on every text in which none of
    the three codes ["&#91;"], ["&#93;"], ["&#44;"] occurs. *)
Theorem unescape_escape_round_trip text :
  occurs "&#91;" text = false →
  occurs "&#93;" text = false →
  occurs "&#44;" text = false →
  _unescape (_escape text) = text.
Proof.
  intros Hl Hr Hc. unfold _unescape.
  rewrite escape_encodes, unescape_amp, unescape_lbracket, unescape_rbracket,
    unescape_comma by done.
  apply encode_id.
Qed.

(** A text with all four characters and with a code that is none of the
    three. *)
Lemma unescape_escape_round_trip_witness :
  _unescape (_escape "R&D [beta], &#9; v2") = "R&D [beta], &#9; v2".
Proof. apply (unescape_escape_round_trip "R&D [beta], &#9; v2"); reflexivity. Defined.

End Codec.
